(** * The AI-governance assistant front end: citation de-duplication,
      the chat query handler, and the crawl monitor

    A shallow embedding of the TypeScript sources

    - [frontend/src/pages/AskAI.tsx]   ([deduplicateCitations], [handleQuery]),
    - [frontend/src/services/api.ts]   ([searchAPI.query]),
    - the Monitor page                 ([stats], [activityFeed], [handleCrawl],
                                        [parseCrawlStatus]),
    - the Admin dashboard page         ([handleCrawl], [parseCrawlStatus]).

    JavaScript strings are sequences of UTF-16 code units.  They are embedded
    as [string]; a character stands for the code unit with the same number, so
    the strings covered are those over the code units 0..255.  A JavaScript
    [Set] is a [gset]; a value that may be [null] or [undefined] is an
    [option]. *)

From Stdlib Require Import ZArith List Ascii String Bool Lia Sorted DecimalString.
From stdpp Require Import gmap strings list.

#[local] Set Warnings "-clear-no-such-hyp".

Local Open Scope string_scope.
Local Open Scope Z_scope.

(** ** Strings *)

Module JsString.

(** [s.startsWith(p)] *)
Fixpoint startsWith (p s : string) : bool :=
  match p, s with
  | EmptyString, _ => true
  | String a p', String b s' => if Ascii.eqb a b then startsWith p' s' else false
  | String _ _, EmptyString => false
  end.

(** [s.includes(p)] *)
Fixpoint includes (p s : string) : bool :=
  startsWith p s ||
  match s with
  | EmptyString => false
  | String _ s' => includes p s'
  end.

(** The template literal [`${a}${b}`] and [a + b]. *)
Fixpoint concat (a b : string) : string :=
  match a with
  | EmptyString => b
  | String c a' => String c (concat a' b)
  end.

(** A string in a condition: the empty string is falsy, every other string
    is truthy. *)
Definition truthy (s : string) : bool :=
  match s with EmptyString => false | String _ _ => true end.

Definition code (c : ascii) : N := N_of_ascii c.

Definition between (lo hi : N) (c : ascii) : bool :=
  ((lo <=? code c) && (code c <=? hi))%N.

(** [toLowerCase] on one code unit below 256: the letters A-Z and the
    Latin-1 capitals U+00C0-U+00DE (U+00D7, the multiplication sign, is
    not a letter) move 32 places up; everything else is unchanged. *)
Definition toLowerChar (c : ascii) : ascii :=
  if between 65 90 c || (between 192 222 c && negb (code c =? 215)%N)
  then ascii_of_N (code c + 32)
  else c.

Fixpoint toLowerCase (s : string) : string :=
  match s with
  | EmptyString => EmptyString
  | String c s' => String (toLowerChar c) (toLowerCase s')
  end.

(** White space of [trim] and of the class [\\s], among the code units
    below 256: TAB, LF, VT, FF, CR, SPACE and NO-BREAK SPACE. *)
Definition isWhiteSpace (c : ascii) : bool :=
  between 9 13 c || (code c =? 32)%N || (code c =? 160)%N.

Fixpoint trimStart (s : string) : string :=
  match s with
  | EmptyString => EmptyString
  | String c s' => if isWhiteSpace c then trimStart s' else s
  end.

Fixpoint trimEnd (s : string) : string :=
  match s with
  | EmptyString => EmptyString
  | String c s' =>
      match trimEnd s' with
      | EmptyString => if isWhiteSpace c then EmptyString else String c EmptyString
      | r => String c r
      end
  end.

Definition trim (s : string) : string := trimEnd (trimStart s).

(** [s.split(sep)] for a separator of one character; the result is never
    empty: splitting the empty string gives the empty string alone. *)
Fixpoint split (sep : ascii) (s : string) : list string :=
  match s with
  | EmptyString => [EmptyString]
  | String c s' =>
      if Ascii.eqb c sep then EmptyString :: split sep s'
      else match split sep s' with
           | p :: ps => String c p :: ps
           | [] => [String c EmptyString]
           end
  end.

(** Regular expressions with the flag [i] and without the flag [u]: a
    letter of the pattern matches a character of the input when both have
    the same canonical form, which is the upper case form.  A character
    outside ASCII never has an ASCII canonical form, so such characters are
    left as they are. *)
Definition canonicalize (c : ascii) : ascii :=
  if between 97 122 c then ascii_of_N (code c - 32) else c.

(** A literal at the start of the input: [Some rest] when it matches. *)
Fixpoint matchLiteralI (lit s : string) : option string :=
  match lit, s with
  | EmptyString, _ => Some s
  | String a lit', String b s' =>
      if Ascii.eqb (canonicalize a) (canonicalize b)
      then matchLiteralI lit' s' else None
  | String _ _, EmptyString => None
  end.

(** [\\s*] at the start of the input; it is greedy and never fails. *)
Definition matchSpaces (s : string) : string := trimStart s.

(** [x?] for one character [x]: greedy, and never fails. *)
Definition matchOptChar (x : ascii) (s : string) : string :=
  match s with
  | String c s' => if Ascii.eqb c x then s' else s
  | EmptyString => s
  end.

(** The part of [s] before the first [sep]; all of [s] when there is none. *)
Fixpoint upTo (sep : ascii) (s : string) : string :=
  match s with
  | EmptyString => EmptyString
  | String c s' => if Ascii.eqb c sep then EmptyString else String c (upTo sep s')
  end.

(** Whether the character [a] occurs in [s]. *)
Fixpoint has_char (a : ascii) (s : string) : bool :=
  match s with
  | EmptyString => false
  | String b s' => Ascii.eqb a b || has_char a s'
  end.

End JsString.

Notation "a +++ b" := (JsString.concat a b) (at level 60, right associativity).

(** ** Citations ([AskAI.tsx]) *)

Record Citation := mkCitation {
  content : string;
  document_title : string;
  document_source : string;
  document_url : option string;
  chunk_index : Z
}.

(** [`${citation.document_title}|${citation.document_source}`] *)
Definition citation_key (c : Citation) : string :=
  document_title c +++ "|" +++ document_source c.

(** The body of [for (const citation of citations)]: [seen] and [unique] are
    the two accumulators of the loop; [unique.push] appends at the end. *)
Fixpoint dedup_loop (citations : list Citation)
    (seen : gset string) (unique : list Citation) : list Citation :=
  match citations with
  | [] => unique
  | citation :: rest =>
      let key := citation_key citation in
      if decide (key ∈ seen)
      then dedup_loop rest seen unique
      else dedup_loop rest ({[key]} ∪ seen) (unique ++ [citation])
  end.

(** [deduplicateCitations]; the argument has type [Message['citations']],
    which may be [undefined]. *)
Definition deduplicateCitations (citations : option (list Citation)) : list Citation :=
  match citations with
  | None => []
  | Some [] => []
  | Some cs => dedup_loop cs ∅ []
  end.

(** The contract in the words of the specification: the key of a citation is
    the pair (document title, document source); the first citation of every
    key is kept and the order of the input is preserved. *)
Definition pair_key (c : Citation) : string * string :=
  (document_title c, document_source c).

Fixpoint first_occurrences {K : Type} `{EqDecision K}
    (key : Citation -> K) (cs : list Citation) : list Citation :=
  match cs with
  | [] => []
  | c :: rest =>
      c :: List.filter (fun d => negb (bool_decide (key d = key c)))
             (first_occurrences key rest)
  end.

Definition dedupe_spec (cs : list Citation) : list Citation :=
  first_occurrences pair_key cs.

Definition other_key {K : Type} `{EqDecision K}
    (key : Citation -> K) (k : K) (d : Citation) : bool :=
  negb (bool_decide (key d = k)).

Definition unseen (seen : gset string) (d : Citation) : bool :=
  negb (bool_decide (citation_key d ∈ seen)).

(** Two citations are duplicates for the specification when their pairs are
    equal, and for the code when the second is dropped after the first. *)
Definition same_pair (c d : Citation) : Prop := pair_key c = pair_key d.

Definition collapsed (c d : Citation) : Prop :=
  deduplicateCitations (Some [c; d]) = [c].

(** Sample citations: two pairs of citations whose pairs differ and whose
    joined keys are equal. *)
Definition actSummary : Citation :=
  mkCitation "Article 5 lists the prohibited practices." "EU AI Act" "summary|EUR-Lex"
             None 0.

Definition actFullText : Citation :=
  mkCitation "Article 6 classifies high-risk systems." "EU AI Act|summary" "EUR-Lex"
             (Some "https://eur-lex.europa.eu/") 3.

Definition rmfCore : Citation :=
  mkCitation "Govern, map, measure, manage." "NIST" "AI RMF|1.0" None 1.

Definition rmfPlaybook : Citation :=
  mkCitation "Suggested actions for each function." "NIST|AI RMF" "1.0" None 7.

Definition bar_free (c : Citation) : Prop :=
  JsString.has_char "|" (document_title c) = false.

(** ** The search client ([services/api.ts]) *)

Module Api.

(** The body posted to [/search/query]. *)
Record SearchRequest := mkSearchRequest {
  path : string;
  question : string;
  top_k : Z
}.

(** [response.data] of a successful call. *)
Record SearchResponse := mkSearchResponse {
  answer : string;
  citations : option (list Citation)
}.

(** What [handleQuery] reads of a rejected call:
    [error?.response?.data?.detail] and [error?.message]. *)
Record ApiError := mkApiError {
  detail : option string;
  message : option string
}.

(** [query: async (question: string, topK: number = 5)]: the default
    applies when the argument is left out. *)
Definition searchAPI_query (question : string) (topK : option Z) : SearchRequest :=
  {| path := "/search/query";
     question := question;
     top_k := match topK with Some k => k | None => 5 end |}.

End Api.

(** ** The chat page ([AskAI.tsx]) *)

Module AskAI.
Import Api.

Inductive Role := user | assistant.

Record Message := mkMessage {
  role : Role;
  content : string;
  citations : option (list Citation)
}.

(** The state of the component: [question], [messages], [isLoading]. *)
Record State := mkState {
  question : string;
  messages : list Message;
  isLoading : bool
}.

(** [setMessages((prev) => [...prev, m])] *)
Definition pushMessage (m : Message) (st : State) : State :=
  {| question := question st;
     messages := messages st ++ [m];
     isLoading := isLoading st |}.

Definition setQuestion (q : string) (st : State) : State :=
  {| question := q; messages := messages st; isLoading := isLoading st |}.

Definition setIsLoading (b : bool) (st : State) : State :=
  {| question := question st; messages := messages st; isLoading := b |}.

(** How a block of statements ends: normally, or by throwing. *)
Inductive Completion (A : Type) :=
| Normal (a : A)
| Throw (error : ApiError).
Arguments Normal {A} a.
Arguments Throw {A} error.

(** [a || b] on a value [a] that is a string, [null] or [undefined]. *)
Definition orElse (a : option string) (b : string) : string :=
  match a with
  | Some s => if JsString.truthy s then s else b
  | None => b
  end.

(** [error?.response?.data?.detail || error?.message || 'Unknown error'] *)
Definition errorDetails (error : ApiError) : string :=
  orElse (detail error) (orElse (message error) "Unknown error").

Definition errorContent (error : ApiError) : string :=
  "Sorry, I encountered an error while processing your question: "
    +++ errorDetails error +++ ". Please try again.".

(** The [try] block, after [await searchAPI.query(query)] has settled. *)
Definition tryBlock (reply : Completion SearchResponse) (st : State)
    : Completion State :=
  match reply with
  | Normal response =>
      let assistantMessage :=
        {| role := assistant;
           content := answer response;
           citations := Some (deduplicateCitations (Api.citations response)) |} in
      Normal (pushMessage assistantMessage st)
  | Throw error => Throw error
  end.

(** The [catch] block. *)
Definition catchBlock (error : ApiError) (st : State) : Completion State :=
  let errorMessage :=
    {| role := assistant; content := errorContent error; citations := None |} in
  Normal (pushMessage errorMessage st).

(** The [finally] block. *)
Definition finallyBlock (st : State) : State := setIsLoading false st.

Definition tryCatchFinally (reply : Completion SearchResponse) (st : State)
    : Completion State :=
  let caught :=
    match tryBlock reply st with
    | Normal st' => Normal st'
    | Throw error => catchBlock error st
    end in
  match caught with
  | Normal st' => Normal (finallyBlock st')
  | Throw error => Throw error
  end.

(** [handleQuery]: how the handler completes, with the state it leaves, and
    the requests it has sent; [reply] is how the call to the search service
    settles. *)
Definition handleQuery (query : string) (reply : Completion SearchResponse)
    (st : State) : Completion State * list SearchRequest :=
  if negb (JsString.truthy (JsString.trim query)) || isLoading st
  then (Normal st, [])
  else
    let userMessage := {| role := user; content := query; citations := None |} in
    let st1 := setIsLoading true (setQuestion EmptyString (pushMessage userMessage st)) in
    let request := searchAPI_query query None in
    (tryCatchFinally reply st1, [request]).

(** The citations shown under a message:
    [const uniqueCitations = deduplicateCitations(message.citations)]. *)
Definition renderedCitations (m : Message) : list Citation :=
  deduplicateCitations (citations m).

(** The page as it is first shown. *)
Definition initialState : State :=
  {| question := EmptyString; messages := []; isLoading := false |}.

(** A rejected call whose body carries a detail of the back end. *)
Definition sampleError : ApiError :=
  {| detail := Some "OperationalError: password authentication failed for user qdrant_admin";
     message := Some "Request failed with status code 500" |}.

End AskAI.

(** ** Origins, as the admin pages receive them from [adminAPI.getOrigins] *)

Module Origin.

Record t := mk {
  id : Z;
  name : string;
  url : string;
  frequency_hours : Z;
  enabled : bool;
  last_run : option string;
  last_status : option string;
  qdrant_status : option string
}.

End Origin.

(** ** What a crawl handler does

    [setCrawlingIds(prev => new Set(prev).add(origin.id))] and
    [crawlMutation.mutate(origin.id)], which posts to
    [/admin/origins/${originId}/crawl].  The handlers return no value; these
    two are all they do. *)
Inductive Effect :=
| AddCrawlingId (originId : Z)
| MutateCrawl (originId : Z).

(** The part of a page that the crawl button touches: the ids being crawled
    and the crawl requests sent so far. *)
Record PageState := mkPageState {
  crawlingIds : gset Z;
  crawlRequests : list Z
}.

Definition perform (st : PageState) (e : Effect) : PageState :=
  match e with
  | AddCrawlingId i =>
      {| crawlingIds := {[i]} ∪ crawlingIds st; crawlRequests := crawlRequests st |}
  | MutateCrawl i =>
      {| crawlingIds := crawlingIds st; crawlRequests := crawlRequests st ++ [i] |}
  end.

(** One invocation of a handler on a page. *)
Definition invoke (handler : gset Z -> Origin.t -> list Effect)
    (origin : Origin.t) (st : PageState) : PageState :=
  foldl perform st (handler (crawlingIds st) origin).

(** [onSuccess] and [onError] of [crawlMutation]: [next.delete(originId)]. *)
Definition settleCrawl (originId : Z) (st : PageState) : PageState :=
  {| crawlingIds := crawlingIds st ∖ {[originId]}; crawlRequests := crawlRequests st |}.

(** The crawl button of both pages:
    [disabled={crawlingIds.has(origin.id) || !origin.enabled}]; a disabled
    button does not call [onClick]. *)
Definition crawlButtonDisabled (crawlingIds : gset Z) (origin : Origin.t) : bool :=
  bool_decide (Origin.id origin ∈ crawlingIds) || negb (Origin.enabled origin).

Definition clickCrawl (handler : gset Z -> Origin.t -> list Effect)
    (crawlingIds : gset Z) (origin : Origin.t) : list Effect :=
  if crawlButtonDisabled crawlingIds origin then [] else handler crawlingIds origin.

(** The crawl requests among the effects of a handler. *)
Definition requestsOf (effects : list Effect) : list Z :=
  omap (fun e => match e with MutateCrawl i => Some i | AddCrawlingId _ => None end)
       effects.

(** ** [parseCrawlStatus] (the same text in the Monitor page and in the
    dashboard) *)

Record CrawlStatus := mkCrawlStatus {
  status : string;
  error : option string
}.

(** [/^crawl:\\s*failed:?\\s*/i]: the rest of the input after the match, if
    the expression matches.  No step has a choice that a later step could
    force to be revised: the spaces cannot take the [f] of [failed], and
    after the optional colon the remaining spaces always match. *)
Definition matchCrawlFailed (s : string) : option string :=
  match JsString.matchLiteralI "crawl:" s with
  | None => None
  | Some s1 =>
      match JsString.matchLiteralI "failed" (JsString.matchSpaces s1) with
      | None => None
      | Some s2 => Some (JsString.matchSpaces (JsString.matchOptChar ":" s2))
      end
  end.

(** [crawlPart.replace(/^crawl:\\s*failed:?\\s*/i, '')] *)
Definition removeCrawlFailed (s : string) : string :=
  match matchCrawlFailed s with
  | Some rest => rest
  | None => s
  end.

Definition parseCrawlStatus (lastStatus : option string) : CrawlStatus :=
  match lastStatus with
  | None => {| status := "never"; error := None |}
  | Some lastStatus =>
      if negb (JsString.truthy lastStatus) then {| status := "never"; error := None |}
      else if JsString.startsWith "crawl: success" (JsString.toLowerCase lastStatus)
      then {| status := "success"; error := None |}
      else if JsString.startsWith "crawl: failed" (JsString.toLowerCase lastStatus)
      then
        let parts := JsString.split "," lastStatus in
        let crawlPart :=
          List.find (fun p => JsString.startsWith "crawl:" (JsString.toLowerCase p)) parts in
        let error :=
          match crawlPart with
          | Some crawlPart => JsString.trim (removeCrawlFailed crawlPart)
          | None => "Unknown error"
          end in
        {| status := "failed"; error := Some error |}
      else {| status := "unknown"; error := None |}
  end.

(** ** The Monitor page *)

Module Monitor.

(** [o.last_status?.toLowerCase().startsWith(prefix)]; [undefined], which is
    falsy, when the status is [null]. *)
Definition statusStartsWith (prefix : string) (last_status : option string) : bool :=
  match last_status with
  | Some s => JsString.startsWith prefix (JsString.toLowerCase s)
  | None => false
  end.

(** [a >= b] on two dates: on their time values, and false when one of them
    is an invalid date, whose time value is [NaN]. *)
Definition dateGe (a b : option Z) : bool :=
  match a, b with
  | Some x, Some y => y <=? x
  | _, _ => false
  end.

Record Stats := mkStats {
  total : nat;
  enabled : nat;
  successful : nat;
  failed : nat
}.

Module Activity.
Record t := mk {
  id : Z;
  name : string;
  timestamp : option Z;
  status : option string;
  enabled : bool
}.
End Activity.

(** The comparison function of [sort], [b.timestamp.getTime() -
    a.timestamp.getTime()]; [sort] takes a result that is [NaN] for [+0]. *)
Definition compareFn (a b : Activity.t) : Z :=
  match Activity.timestamp b, Activity.timestamp a with
  | Some tb, Some ta => tb - ta
  | _, _ => 0
  end.

(** [Array.prototype.sort] is stable; for a consistent comparison function
    every stable sort gives the same array, and this is the one that inserts
    the elements from the last to the first.  [x] comes from before every
    element of [l].  When a timestamp is an invalid date the comparison
    function is not consistent, the language leaves the order to the engine,
    and the order of this function need not be the order of the engine: the
    properties below that speak of the order assume valid dates, the others
    hold of every permutation. *)
Fixpoint insertSorted {A : Type} (cmp : A -> A -> Z) (x : A) (l : list A) : list A :=
  match l with
  | [] => [x]
  | y :: l' => if cmp x y <=? 0 then x :: l else y :: insertSorted cmp x l'
  end.

Definition sort {A : Type} (cmp : A -> A -> Z) (l : list A) : list A :=
  foldr (insertSorted cmp) [] l.

Section WithClock.

(** [new Date(s)] for a string [s]: the time value in milliseconds, or [None]
    for an invalid date. *)
Variable parseDate : string -> option Z.

(** [new Date()] at the moment the statistics are computed. *)
Variable now : Z.

Definition last24h : option Z := Some (now - 24 * 60 * 60 * 1000).

(** The callback of the two [filter]s of [stats], for the prefix it tests. *)
Definition ranWithStatus (prefix : string) (o : Origin.t) : bool :=
  match Origin.last_run o with
  | None => false
  | Some last_run =>
      if negb (JsString.truthy last_run) then false
      else
        let lastRun := parseDate last_run in
        dateGe lastRun last24h && statusStartsWith prefix (Origin.last_status o)
  end.

Definition stats (origins : option (list Origin.t)) : option Stats :=
  match origins with
  | None => None
  | Some origins =>
      Some {| total := length origins;
              enabled := length (List.filter Origin.enabled origins);
              successful := length (List.filter (ranWithStatus "success") origins);
              failed := length (List.filter (ranWithStatus "failed") origins) |}
  end.

(** [.filter((o) => o.last_run)] *)
Definition hasLastRun (o : Origin.t) : bool :=
  match Origin.last_run o with
  | Some last_run => JsString.truthy last_run
  | None => false
  end.

Definition toActivity (o : Origin.t) : Activity.t :=
  {| Activity.id := Origin.id o;
     Activity.name := Origin.name o;
     Activity.timestamp :=
       match Origin.last_run o with
       | Some last_run => parseDate last_run
       | None => Some 0
       end;
     Activity.status := Origin.last_status o;
     Activity.enabled := Origin.enabled o |}.

Definition activityFeed (origins : option (list Origin.t)) : list Activity.t :=
  match origins with
  | None => []
  | Some origins =>
      take 20 (sort compareFn (List.map toActivity (List.filter hasLastRun origins)))
  end.

End WithClock.

(** [if (crawlingIds.has(origin.id) || !origin.enabled) return;] *)
Definition handleCrawl (crawlingIds : gset Z) (origin : Origin.t) : list Effect :=
  if bool_decide (Origin.id origin ∈ crawlingIds) || negb (Origin.enabled origin)
  then []
  else [AddCrawlingId (Origin.id origin); MutateCrawl (Origin.id origin)].

End Monitor.

(** ** The admin dashboard *)

Module Dashboard.

(** [if (crawlingIds.has(origin.id)) return; // Prevent double-click] *)
Definition handleCrawl (crawlingIds : gset Z) (origin : Origin.t) : list Effect :=
  if bool_decide (Origin.id origin ∈ crawlingIds)
  then []
  else [AddCrawlingId (Origin.id origin); MutateCrawl (Origin.id origin)].

End Dashboard.

(** ** The statements of the claims on the Monitor page *)

(** [n] is the number of elements of [l] that satisfy [P]. *)
Inductive Counts {A : Type} (P : A -> Prop) : list A -> nat -> Prop :=
| Counts_nil : Counts P [] 0
| Counts_in x l n : P x -> Counts P l n -> Counts P (x :: l) (S n)
| Counts_out x l n : ~ P x -> Counts P l n -> Counts P (x :: l) n.

(** An origin that has a last run, no more than 24 hours before [now], and
    whose last status, in lower case, begins with [prefix]. *)
Definition ranInLast24h (parseDate : string -> option Z) (now : Z)
    (prefix : string) (o : Origin.t) : Prop :=
  exists (run : string) (t : Z) (s : string),
    Origin.last_run o = Some run /\ run <> EmptyString /\
    parseDate run = Some t /\ now - 86400000 <= t /\
    Origin.last_status o = Some s /\
    JsString.startsWith prefix (JsString.toLowerCase s) = true.

(** The same with the words of the claim on the statistics: the last run
    lies within the past 24 hours, between [now - 24h] and [now]. *)
Definition ranInPast24h (parseDate : string -> option Z) (now : Z)
    (prefix : string) (o : Origin.t) : Prop :=
  exists (run : string) (t : Z) (s : string),
    Origin.last_run o = Some run /\ run <> EmptyString /\
    parseDate run = Some t /\ now - 86400000 <= t <= now /\
    Origin.last_status o = Some s /\
    JsString.startsWith prefix (JsString.toLowerCase s) = true.

(** A last status in the composite format. *)
Definition compositeStatus (o : Origin.t) : Prop :=
  exists s : string,
    Origin.last_status o = Some s /\ JsString.startsWith "crawl: " s = true.

(** The last run of an origin, when there is one, is a date. *)
Definition validRun (parseDate : string -> option Z) (o : Origin.t) : Prop :=
  forall run : string,
    Origin.last_run o = Some run -> run <> EmptyString -> is_Some (parseDate run).

(** An activity whose timestamp is a date. *)
Definition dated (a : Monitor.Activity.t) : Prop :=
  is_Some (Monitor.Activity.timestamp a).

(** [a] is no older than [b], and [a] is newer than [b]. *)
Definition noOlder (a b : Monitor.Activity.t) : Prop :=
  exists ta tb : Z,
    Monitor.Activity.timestamp a = Some ta /\
    Monitor.Activity.timestamp b = Some tb /\ tb <= ta.


(** ** Sample data *)

Definition sampleOrigin (i : Z) (on : bool) (run status : option string) : Origin.t :=
  {| Origin.id := i; Origin.name := "EU AI Act"; Origin.url := "https://example.org/act";
     Origin.frequency_hours := 24; Origin.enabled := on;
     Origin.last_run := run; Origin.last_status := status;
     Origin.qdrant_status := None |}.

Definition sampleOrigins : list Origin.t :=
  [ sampleOrigin 1 true (Some "2024-01-03T12:00:00Z")
      (Some "crawl: success, qdrant: success");
    sampleOrigin 2 true (Some "2024-01-03T12:00:00Z")
      (Some "crawl: failed: Connection timed out") ].

(** Two origins crawled at the same moment, and one crawled a day later. *)
Definition sameMomentOrigins : list Origin.t :=
  [ sampleOrigin 1 true (Some "2024-01-01T00:00:00Z") (Some "success");
    sampleOrigin 2 true (Some "2024-01-01T00:00:00Z") (Some "success");
    sampleOrigin 3 false None None;
    sampleOrigin 4 true (Some "2024-01-02T00:00:00Z") (Some "failed: timeout") ].

(** An origin whose last run is dated two and a half days after the first
    of January 2024, as a clock that runs ahead gives it. *)
Definition aheadOrigin : Origin.t :=
  sampleOrigin 5 true (Some "2024-01-03T12:00:00Z") (Some "success").


(** The time values of the dates used in the examples, as [new Date] gives
    them. *)
Definition sampleDate (s : string) : option Z :=
  if String.eqb s "2024-01-01T00:00:00Z" then Some 1704067200000
  else if String.eqb s "2024-01-02T00:00:00Z" then Some 1704153600000
  else if String.eqb s "2024-01-03T12:00:00Z" then Some 1704283200000
  else None.

(** ** More of the string and number operations *)

Module JsText.

(** [parts.join(sep)] *)
Fixpoint join (sep : string) (parts : list string) : string :=
  match parts with
  | [] => EmptyString
  | [p] => p
  | p :: rest => p +++ sep +++ join sep rest
  end.

(** The part of [s] after the first [sep]; empty when there is none. *)
Fixpoint after (sep : ascii) (s : string) : string :=
  match s with
  | EmptyString => EmptyString
  | String c s' => if Ascii.eqb c sep then s' else after sep s'
  end.

(** Whether every character of [s] is an ASCII character. *)
Fixpoint isAscii (s : string) : bool :=
  match s with
  | EmptyString => true
  | String c s' => JsString.between 0 127 c && isAscii s'
  end.

(** [`${n}`] for an integer [n]. *)
Definition numberToString (n : Z) : string :=
  NilZero.string_of_int (Z.to_int n).

(** [/^failed:?\\s*/i] removed from the start of [s]. *)
Definition removeFailed (s : string) : string :=
  match JsString.matchLiteralI "failed" s with
  | Some rest => JsString.matchSpaces (JsString.matchOptChar ":" rest)
  | None => s
  end.

End JsText.

(** ** The rest of the chat page ([AskAI.tsx]) and the landing page *)

Module Chat.
Import Api AskAI.

(** [handleSubmit]: [if (!isLoading && question.trim()) handleQuery(question)] *)
Definition handleSubmit (reply : Completion SearchResponse) (st : State)
    : Completion State * list SearchRequest :=
  if negb (isLoading st) && JsString.truthy (JsString.trim (question st))
  then handleQuery (question st) reply st
  else (Normal st, []).

(** [handleAsk] of the landing page: the state it navigates to [/ask] with,
    if it navigates. *)
Definition handleAsk (question : string) : option string :=
  if JsString.truthy (JsString.trim question) then Some question else None.

(** The effect that handles the question the page was opened with.
    [processed] is [hasProcessedInitialQuestion.current]; the result holds
    its new value. *)
Definition initialQuestionEffect (initialQuestion : option string) (processed : bool)
    (reply : Completion SearchResponse) (st : State)
    : bool * (Completion State * list SearchRequest) :=
  match initialQuestion with
  | Some q =>
      if JsString.truthy q && negb processed
      then (true, handleQuery q reply (setQuestion q st))
      else (processed, (Normal st, []))
  | None => (processed, (Normal st, []))
  end.

End Chat.

(** ** The HTTP client ([services/api.ts]): the token and the interceptors *)

Module Client.

Record RequestConfig := mkConfig {
  url : string;
  headers : gmap string string
}.

(** A rejected call: [error.response?.status], and the rest of the error. *)
Record HttpError := mkHttpError {
  response_status : option Z;
  body : Api.ApiError
}.

(** The request interceptor. *)
Definition onRequest (localStorage : gmap string string) (config : RequestConfig)
    : RequestConfig :=
  match localStorage !! "auth_token" with
  | Some token =>
      if JsString.truthy token
      then {| url := url config;
              headers := <["Authorization" := "Bearer " +++ token]> (headers config) |}
      else config
  | None => config
  end.

(** The response interceptor, on an error: what it does to the storage; the
    error is rejected again as it is. *)
Definition onResponseError (error : HttpError) (localStorage : gmap string string)
    : gmap string string :=
  if bool_decide (response_status error = Some 401)
  then delete "auth_token" localStorage
  else localStorage.

(** A call through [apiClient]: [server] is what the back end answers to the
    request it receives. *)
Definition send {A : Type} (server : RequestConfig -> A + HttpError)
    (config : RequestConfig) (localStorage : gmap string string)
    : gmap string string * (A + HttpError) :=
  match server (onRequest localStorage config) with
  | inl data => (localStorage, inl data)
  | inr error => (onResponseError error localStorage, inr error)
  end.

(** [authAPI.login], which posts with [axios] itself and not through
    [apiClient]: [reply] is [response.data.access_token] of a successful
    call, or the error of a rejected one. *)
Definition login (reply : option string + HttpError) (localStorage : gmap string string)
    : gmap string string :=
  match reply with
  | inl (Some access_token) =>
      if JsString.truthy access_token
      then <["auth_token" := access_token]> localStorage
      else localStorage
  | inl None => localStorage
  | inr _ => localStorage
  end.

(** [authAPI.logout] *)
Definition logout (localStorage : gmap string string) : gmap string string :=
  delete "auth_token" localStorage.

(** The headers that [axios.create] gives every request. *)
Definition defaultHeaders : gmap string string :=
  {[ "Content-Type" := "application/json" ]}.

End Client.

(** ** The authentication context and the guards of the admin routes *)

Module Auth.

Inductive Role := admin | viewer.

Record User := mkUser {
  id : Z;
  username : string;
  email : string;
  role : Role;
  is_active : bool
}.

Record AuthState := mkAuthState {
  user : option User;
  loading : bool
}.

(** [useState<User | null>(null)] and [useState(true)] *)
Definition initialAuth : AuthState := {| user := None; loading := true |}.

(** [checkAuth]: [authAPI.getMe] is a call through [apiClient] to
    [/auth/me]. *)
Definition checkAuth (server : Client.RequestConfig -> User + Client.HttpError)
    (localStorage : gmap string string) (st : AuthState)
    : gmap string string * AuthState :=
  match localStorage !! "auth_token" with
  | Some token =>
      if JsString.truthy token then
        match Client.send server
                {| Client.url := "/auth/me"; Client.headers := Client.defaultHeaders |}
                localStorage with
        | (localStorage', inl userData) =>
            (localStorage', {| user := Some userData; loading := false |})
        | (localStorage', inr _) =>
            (delete "auth_token" localStorage', {| user := user st; loading := false |})
        end
      else (localStorage, {| user := user st; loading := false |})
  | None => (localStorage, {| user := user st; loading := false |})
  end.

(** [isAuthenticated: !!user] and [isAdmin: user?.role === 'admin'] *)
Definition isAuthenticated (st : AuthState) : bool :=
  match user st with Some _ => true | None => false end.

Definition isAdmin (st : AuthState) : bool :=
  match user st with
  | Some u => match role u with admin => true | viewer => false end
  | None => false
  end.

(** What a route element shows. *)
Inductive View :=
| LoadingView
| Navigate (to : string)
| Children.

Definition ProtectedRoute (st : AuthState) (children : View) : View :=
  if loading st then LoadingView
  else if negb (isAuthenticated st) then Navigate "/admin/login"
  else children.

Definition AdminLayout (st : AuthState) (children : View) : View :=
  if negb (isAdmin st) then Navigate "/" else children.

(** The element of the routes [/admin/dashboard], [/admin/health] and
    [/admin/monitor]. *)
Definition adminRoute (st : AuthState) : View :=
  ProtectedRoute st (AdminLayout st Children).

End Auth.

(** ** The form of the admin dashboard *)

Module OriginForm.

Record FormData := mkFormData {
  name : string;
  url : string;
  frequency_hours : Z;
  enabled : bool
}.

(** The body of [adminAPI.updateOrigin]: every field is optional. *)
Record Patch := mkPatch {
  patch_name : option string;
  patch_url : option string;
  patch_frequency_hours : option Z;
  patch_enabled : option bool
}.

Record State := mkState {
  showForm : bool;
  editingId : option Z;
  formData : FormData
}.

Inductive Mutation :=
| CreateOrigin (data : FormData)
| UpdateOrigin (id : Z) (data : Patch)
| DeleteOrigin (id : Z).

Definition blankForm : FormData :=
  {| name := EmptyString; url := EmptyString; frequency_hours := 24; enabled := true |}.

Definition initialForm : State :=
  {| showForm := false; editingId := None; formData := blankForm |}.

Definition resetForm (st : State) : State :=
  {| showForm := showForm st; editingId := editingId st; formData := blankForm |}.

Definition setShowForm (b : bool) (st : State) : State :=
  {| showForm := b; editingId := editingId st; formData := formData st |}.

Definition setEditingId (i : option Z) (st : State) : State :=
  {| showForm := showForm st; editingId := i; formData := formData st |}.

Definition handleEdit (origin : Origin.t) (st : State) : State :=
  {| showForm := true;
     editingId := Some (Origin.id origin);
     formData := {| name := Origin.name origin;
                    url := Origin.url origin;
                    frequency_hours := Origin.frequency_hours origin;
                    enabled := Origin.enabled origin |} |}.

(** [formData] as the body of an update. *)
Definition patchOfForm (data : FormData) : Patch :=
  {| patch_name := Some (name data);
     patch_url := Some (url data);
     patch_frequency_hours := Some (frequency_hours data);
     patch_enabled := Some (enabled data) |}.

(** [if (editingId)]: a number is truthy when it is not 0. *)
Definition handleSubmit (st : State) : list Mutation :=
  match editingId st with
  | Some i =>
      if negb (i =? 0) then [UpdateOrigin i (patchOfForm (formData st))]
      else [CreateOrigin (formData st)]
  | None => [CreateOrigin (formData st)]
  end.

Definition handleCancel (st : State) : State :=
  resetForm (setEditingId None (setShowForm false st)).

(** [confirmed] is the answer to [confirm(...)]. *)
Definition handleDelete (confirmed : bool) (i : Z) : list Mutation :=
  if confirmed then [DeleteOrigin i] else [].

Definition handleToggle (origin : Origin.t) : list Mutation :=
  [UpdateOrigin (Origin.id origin)
     {| patch_name := None; patch_url := None; patch_frequency_hours := None;
        patch_enabled := Some (negb (Origin.enabled origin)) |}].

(** [onSuccess] of [createMutation] and of [updateMutation]. *)
Definition onCreateSuccess (st : State) : State := resetForm (setShowForm false st).

Definition onUpdateSuccess (st : State) : State := resetForm (setEditingId None st).

(** The title of the form: [editingId ? 'Edit Origin' : 'Add New Origin']. *)
Definition formTitle (st : State) : string :=
  match editingId st with
  | Some i => if negb (i =? 0) then "Edit Origin" else "Add New Origin"
  | None => "Add New Origin"
  end.

End OriginForm.

(** ** The rest of the Monitor page *)

Module MonitorView.

(** [toggleErrorExpansion], as the function it gives to [setExpandedErrors]. *)
Definition toggleErrorExpansion (i : Z) (expandedErrors : gset Z) : gset Z :=
  if decide (i ∈ expandedErrors) then expandedErrors ∖ {[i]} else {[i]} ∪ expandedErrors.

(** The badges of [getStatusBadge]: the last one shows the status itself. *)
Inductive StatusBadge :=
| NeverRun
| Success
| Failed
| Plain (status : string).

Definition getStatusBadge (status : option string) : StatusBadge :=
  match status with
  | None => NeverRun
  | Some status =>
      if negb (JsString.truthy status) then NeverRun
      else if JsString.startsWith "success" (JsString.toLowerCase status) then Success
      else if JsString.startsWith "failed" (JsString.toLowerCase status) then Failed
      else Plain status
  end.

(** The badge of the column Crawl Status:
    [getStatusBadge(parseCrawlStatus(origin.last_status).status === 'success'
    ? 'success' : parseCrawlStatus(origin.last_status).status === 'failed'
    ? 'failed' : origin.last_status)]. *)
Definition crawlStatusBadge (last_status : option string) : StatusBadge :=
  getStatusBadge
    (if String.eqb (status (parseCrawlStatus last_status)) "success" then Some "success"
     else if String.eqb (status (parseCrawlStatus last_status)) "failed" then Some "failed"
     else last_status).

(** The badges of [getQdrantStatusBadge]; the badge of an error carries its
    title. *)
Inductive QdrantBadge :=
| NotSynced
| Synced
| QdrantError (title : string)
| PlainQdrant (status : string).

Definition getQdrantStatusBadge (qdrantStatus : option string) : QdrantBadge :=
  match qdrantStatus with
  | None => NotSynced
  | Some qdrantStatus =>
      if negb (JsString.truthy qdrantStatus) then NotSynced
      else if JsString.startsWith "success" (JsString.toLowerCase qdrantStatus) then Synced
      else if JsString.startsWith "failed" (JsString.toLowerCase qdrantStatus) then
        let errorMsg :=
          if JsString.has_char ":" qdrantStatus
          then match JsString.split ":" qdrantStatus with
               | _ :: second :: _ => JsString.trim second
               | _ => EmptyString
               end
          else "Qdrant error" in
        QdrantError ("Qdrant error: " +++ errorMsg)
      else PlainQdrant qdrantStatus
  end.

(** The text under Qdrant Error in the details of an origin:
    [qdrant_status.includes(':') ?
    qdrant_status.split(':').slice(1).join(':').trim() :
    qdrant_status.replace(/^failed:?\\s*/i, '')]. *)
Definition qdrantErrorText (qdrant_status : string) : string :=
  if JsString.has_char ":" qdrant_status
  then JsString.trim (JsText.join ":" (drop 1 (JsString.split ":" qdrant_status)))
  else JsText.removeFailed qdrant_status.

(** The argument of [getRelativeTime]: [null], a string, or a [Date] with
    its time value, which is [None] for an invalid date. *)
Inductive DateArg :=
| DateNull
| DateString (s : string)
| DateObject (time : option Z).

Section WithClock.

Variable parseDate : string -> option Z.

(** [d.toLocaleDateString()] *)
Variable toLocaleDateString : option Z -> string.

(** [new Date()] inside [getRelativeTime]. *)
Variable now : Z.

Definition getRelativeTime (date : DateArg) : string :=
  let relative (d : option Z) : string :=
    match d with
    | None => toLocaleDateString d
    | Some t =>
        let diffMs := now - t in
        let diffMins := diffMs / 60000 in
        let diffHours := diffMs / 3600000 in
        let diffDays := diffMs / 86400000 in
        if diffMins <? 1 then "Just now"
        else if diffMins <? 60 then JsText.numberToString diffMins +++ "m ago"
        else if diffHours <? 24 then JsText.numberToString diffHours +++ "h ago"
        else if diffDays <? 7 then JsText.numberToString diffDays +++ "d ago"
        else toLocaleDateString d
    end in
  match date with
  | DateNull => "Never"
  | DateString s => if JsString.truthy s then relative (parseDate s) else "Never"
  | DateObject d => relative d
  end.

End WithClock.

(** The crawls of a page over a sequence of events: a click on the crawl
    button of an origin, and the end of the crawl of an origin, which
    [onSuccess] and [onError] handle alike.  [inFlight] lists the crawl
    requests that were sent and have not ended.  Every event sees the state
    that the event before it has left. *)
Inductive Event :=
| Click (origin : Origin.t)
| Ended (originId : Z).

Record Crawls := mkCrawls {
  ids : gset Z;
  inFlight : list Z
}.

Fixpoint removeFirst (i : Z) (l : list Z) : list Z :=
  match l with
  | [] => []
  | j :: l' => if i =? j then l' else j :: removeFirst i l'
  end.

Definition crawlStep (handler : gset Z -> Origin.t -> list Effect)
    (st : Crawls) (e : Event) : Crawls :=
  match e with
  | Click origin =>
      let effects := clickCrawl handler (ids st) origin in
      {| ids := crawlingIds (foldl perform (mkPageState (ids st) []) effects);
         inFlight := inFlight st ++ requestsOf effects |}
  | Ended i =>
      if bool_decide (i ∈ inFlight st)
      then {| ids := ids st ∖ {[i]}; inFlight := removeFirst i (inFlight st) |}
      else st
  end.

Definition noCrawls : Crawls := {| ids := ∅; inFlight := [] |}.

(** No origin has two crawls in flight, and the origins marked as crawling
    are the origins with a crawl in flight. *)
Definition singleFlight (st : Crawls) : Prop :=
  NoDup (inFlight st) /\ forall i, i ∈ inFlight st <-> i ∈ ids st.

End MonitorView.

(** ** More sample data *)

Definition sampleConfig : Client.RequestConfig :=
  {| Client.url := "/admin/origins"; Client.headers := Client.defaultHeaders |}.

Definition unauthorized : Client.HttpError :=
  {| Client.response_status := Some 401;
     Client.body := {| Api.detail := Some "Could not validate credentials";
                       Api.message := Some "Request failed with status code 401" |} |}.

Definition sampleAdmin : Auth.User :=
  {| Auth.id := 1; Auth.username := "root"; Auth.email := "root@example.org";
     Auth.role := Auth.admin; Auth.is_active := true |}.

(** * Properties *)

(** ** Strings *)

Section StringFacts.
Import JsString.

Lemma concat_inj_l (a b1 b2 : string) : a +++ b1 = a +++ b2 -> b1 = b2.
Proof. induction a as [|c a IH]; simpl; [trivial|]. intros [= H]. auto. Qed.

Lemma startsWith_concat (p r : string) : startsWith p (p +++ r) = true.
Proof.
  induction p as [|a p IH]; simpl; [reflexivity|].
  now rewrite Ascii.eqb_refl.
Qed.

Lemma startsWith_inv (p s : string) :
  startsWith p s = true -> exists r, s = p +++ r.
Proof.
  revert s. induction p as [|a p IH]; intros s; simpl.
  - intros _. now exists s.
  - destruct s as [|b s]; [discriminate|].
    destruct (Ascii.eqb a b) eqn:Hab; [|discriminate].
    apply Ascii.eqb_eq in Hab as ->. intros Hs.
    destruct (IH _ Hs) as [r ->]. now exists r.
Qed.

(** The joined key determines the pair when no title contains the
    separator. *)
Lemma joined_key_inj (t1 t2 s1 s2 : string) :
  has_char "|" t1 = false -> has_char "|" t2 = false ->
  t1 +++ "|" +++ s1 = t2 +++ "|" +++ s2 -> t1 = t2 /\ s1 = s2.
Proof.
  revert t2. induction t1 as [|a t1 IH]; intros [|b t2]; simpl.
  - intros _ _ [= ->]. now split.
  - intros _ Hb [= <- _]. discriminate.
  - intros Ha _ [= -> _]. discriminate.
  - intros Ha Hb [= -> He].
    apply orb_false_iff in Ha as [_ Ha]. apply orb_false_iff in Hb as [_ Hb].
    destruct (IH _ Ha Hb He) as [-> ->]. now split.
Qed.

End StringFacts.

(** ** The de-duplication loop *)

Section FirstOccurrences.
Context {K : Type} `{EqDecision K} (key : Citation -> K).

Lemma filter_andb (p q : Citation -> bool) (l : list Citation) :
  List.filter p (List.filter q l) = List.filter (fun x => q x && p x) l.
Proof.
  induction l as [|x l IH]; simpl; [reflexivity|].
  destruct (q x); simpl; [destruct (p x)|]; now rewrite IH.
Qed.

Lemma filter_sublist (p : Citation -> bool) (l : list Citation) :
  sublist (List.filter p l) l.
Proof.
  induction l as [|d l IHl]; simpl; [constructor|].
  destruct (p d); [now apply sublist_skip | now apply sublist_cons].
Qed.

Lemma filter_all (p : Citation -> bool) (l : list Citation) :
  (forall d, p d = true) -> List.filter p l = l.
Proof.
  intros Hp. induction l as [|d l IH]; simpl; [reflexivity|].
  now rewrite Hp, IH.
Qed.

Lemma first_occurrences_In (c : Citation) (cs : list Citation) :
  In c (first_occurrences key cs) -> In c cs.
Proof.
  induction cs as [|d cs IH]; simpl; [tauto|].
  intros [->|Hin]; [now left|].
  apply filter_In in Hin. right. tauto.
Qed.

Lemma first_occurrences_filter (k : K) (cs : list Citation) :
  first_occurrences key (List.filter (other_key key k) cs)
  = List.filter (other_key key k) (first_occurrences key cs).
Proof.
  induction cs as [|c cs IH]; simpl; [reflexivity|].
  destruct (other_key key k c) eqn:Hc; simpl.
  - rewrite IH, !filter_andb. f_equal.
    apply filter_ext. intros d. apply andb_comm.
  - rewrite IH, filter_andb.
    apply filter_ext. intros d. unfold other_key in *.
    apply negb_false_iff, bool_decide_eq_true in Hc.
    destruct (bool_decide (key d = k)) eqn:Hd; simpl.
    + now rewrite andb_false_r.
    + rewrite andb_true_r. symmetry.
      apply negb_true_iff, bool_decide_eq_false.
      apply bool_decide_eq_false in Hd. congruence.
Qed.

Lemma first_occurrences_idem (cs : list Citation) :
  first_occurrences key (first_occurrences key cs) = first_occurrences key cs.
Proof.
  induction cs as [|c cs IH]; simpl; [reflexivity|].
  f_equal. fold (other_key key (key c)).
  rewrite first_occurrences_filter, IH, filter_andb.
  apply filter_ext. intros d. apply andb_diag.
Qed.

(** The result keeps the order of the input ... *)
Lemma first_occurrences_sublist (cs : list Citation) :
  sublist (first_occurrences key cs) cs.
Proof.
  induction cs as [|c cs IH]; simpl; [constructor|].
  apply sublist_skip.
  etransitivity; [apply filter_sublist | exact IH].
Qed.

(** ... holds every key once ... *)
Lemma first_occurrences_NoDup (cs : list Citation) :
  NoDup (key <$> first_occurrences key cs).
Proof.
  induction cs as [|c cs IH]; [constructor|].
  cbn [first_occurrences]. rewrite fmap_cons. constructor.
  - rewrite list_elem_of_fmap. intros (d & Hk & Hd).
    apply list_elem_of_In, filter_In in Hd. destruct Hd as [_ Hd].
    apply negb_true_iff, bool_decide_eq_false in Hd. congruence.
  - refine (sublist_NoDup _ _ IH _).
    apply fmap_sublist, filter_sublist.
Qed.

(** ... and holds, for a key, the citation that comes first in the input:
    a citation is kept exactly when it stands at a position before which
    no citation has its key. *)
Lemma first_occurrences_first (c : Citation) (cs : list Citation) :
  In c (first_occurrences key cs) <->
  exists pre post, cs = (pre ++ c :: post)%list /\ Forall (fun d => key d <> key c) pre.
Proof.
  induction cs as [|x cs IH]; simpl.
  - split; [tauto|]. intros (pre & post & He & _). now destruct pre.
  - rewrite filter_In, IH. split.
    + intros [->|[(pre & post & -> & Hpre) Hx]].
      * exists [], cs. split; [reflexivity | constructor].
      * exists (x :: pre), post. split; [reflexivity|].
        constructor; [|exact Hpre].
        apply negb_true_iff, bool_decide_eq_false in Hx. congruence.
    + intros (pre & post & He & Hpre). destruct pre as [|y pre].
      * injection He as -> ->. now left.
      * injection He as -> ->. right.
        apply Forall_cons in Hpre as [Hy Hpre]. split.
        -- now exists pre, post.
        -- apply negb_true_iff, bool_decide_eq_false. congruence.
Qed.

End FirstOccurrences.

(** The loop with its two accumulators, as a function of the input list
    alone: [unique] is a prefix of the result, and what follows are the first
    occurrences among the citations whose key was not seen before. *)
Lemma dedup_loop_first_occurrences (cs : list Citation) :
  forall (seen : gset string) (unique : list Citation),
    dedup_loop cs seen unique
    = (unique ++ List.filter (unseen seen) (first_occurrences citation_key cs))%list.
Proof.
  induction cs as [|c cs IH]; intros seen unique; simpl.
  - now rewrite app_nil_r.
  - destruct (decide (citation_key c ∈ seen)) as [Hin|Hout].
    + rewrite IH. f_equal. unfold unseen at 2.
      rewrite (bool_decide_eq_true_2 _ Hin). simpl.
      rewrite filter_andb. apply filter_ext. intros d. unfold unseen.
      destruct (bool_decide (citation_key d = citation_key c)) eqn:Hd; simpl.
      * apply bool_decide_eq_true in Hd. rewrite Hd.
        now rewrite (bool_decide_eq_true_2 _ Hin).
      * reflexivity.
    + rewrite IH, <- app_assoc. simpl. f_equal. unfold unseen at 2.
      rewrite (bool_decide_eq_false_2 _ Hout). simpl. f_equal.
      rewrite filter_andb. apply filter_ext. intros d. unfold unseen.
      destruct (bool_decide (citation_key d = citation_key c)) eqn:Hd; simpl.
      * apply bool_decide_eq_true in Hd.
        apply negb_false_iff, bool_decide_eq_true.
        rewrite elem_of_union, elem_of_singleton. now left.
      * apply bool_decide_eq_false in Hd. f_equal.
        apply bool_decide_ext.
        rewrite elem_of_union, elem_of_singleton. tauto.
Qed.

(** What the code computes: the first occurrence of every joined key. *)
Lemma deduplicateCitations_joined_key (cs : list Citation) :
  deduplicateCitations (Some cs) = first_occurrences citation_key cs.
Proof.
  destruct cs as [|c cs]; [reflexivity|].
  unfold deduplicateCitations.
  rewrite dedup_loop_first_occurrences, app_nil_l.
  apply filter_all. intros d. unfold unseen.
  apply negb_true_iff, bool_decide_eq_false. apply not_elem_of_empty.
Qed.

Lemma pair_key_citation_key (c d : Citation) :
  pair_key c = pair_key d -> citation_key c = citation_key d.
Proof. unfold citation_key, pair_key. intros [= -> ->]. reflexivity. Qed.

Lemma citation_key_pair_key (c d : Citation) :
  bar_free c -> bar_free d ->
  citation_key c = citation_key d <-> pair_key c = pair_key d.
Proof.
  intros Hc Hd. split; [|apply pair_key_citation_key].
  unfold citation_key, pair_key.
  intros He. destruct (joined_key_inj _ _ _ _ Hc Hd He). congruence.
Qed.

(** On citations whose titles do not contain the separator, the loop meets
    the contract of the specification. *)
Lemma deduplicateCitations_bar_free (cs : list Citation) :
  Forall bar_free cs -> deduplicateCitations (Some cs) = dedupe_spec cs.
Proof.
  rewrite deduplicateCitations_joined_key. unfold dedupe_spec.
  induction 1 as [|c cs Hc Hcs IH]; simpl; [reflexivity|].
  f_equal. rewrite IH. apply filter_ext_in. intros d Hd. f_equal.
  apply first_occurrences_In in Hd.
  rewrite List.Forall_forall in Hcs. specialize (Hcs _ Hd).
  apply bool_decide_ext. now apply citation_key_pair_key.
Qed.

(** The example of the specification, for every title [T] and every two
    different sources [A] and [B], whatever the other fields are. *)
Lemma deduplicateCitations_TA_TA_TB_TA (c1 c2 c3 c4 : Citation) (T A B : string) :
  A <> B ->
  pair_key c1 = (T, A) -> pair_key c2 = (T, A) ->
  pair_key c3 = (T, B) -> pair_key c4 = (T, A) ->
  deduplicateCitations (Some [c1; c2; c3; c4]) = [c1; c3].
Proof.
  intros HAB H1 H2 H3 H4.
  assert (K1 : citation_key c2 = citation_key c1)
    by (apply pair_key_citation_key; congruence).
  assert (K4 : citation_key c4 = citation_key c1)
    by (apply pair_key_citation_key; congruence).
  assert (K3 : citation_key c3 <> citation_key c1).
  { unfold citation_key, pair_key in *.
    injection H1 as -> ->. injection H3 as -> ->.
    intros He. apply concat_inj_l in He. injection He as ->. congruence. }
  unfold deduplicateCitations. cbn [dedup_loop]. rewrite K1, K4.
  repeat case_decide; first [reflexivity | exfalso; set_solver].
Qed.

(** Two citations with the same pair are collapsed, whatever their content
    and chunk index are. *)
Lemma same_pair_collapsed (c d : Citation) : same_pair c d -> collapsed c d.
Proof.
  intros He. apply pair_key_citation_key in He.
  unfold collapsed, deduplicateCitations. cbn [dedup_loop]. rewrite He.
  repeat case_decide; first [reflexivity | exfalso; set_solver].
Qed.

Lemma collapsed_same_key (c d : Citation) :
  collapsed c d <-> citation_key c = citation_key d.
Proof.
  unfold collapsed, deduplicateCitations. cbn [dedup_loop].
  repeat case_decide; split; intros He;
    first [discriminate | reflexivity | set_solver].
Qed.

Lemma collapsed_bar_free (c d : Citation) :
  bar_free c -> bar_free d -> (collapsed c d <-> same_pair c d).
Proof.
  intros Hc Hd. rewrite collapsed_same_key. now apply citation_key_pair_key.
Qed.

(** ** Claims on the citations *)

(** C1.  The claim: for every list of citations, [deduplicateCitations]
    returns, for each distinct (document_title, document_source) pair, exactly
    the first citation of the input with that pair, in the order of the input.
    The code departs from it: on the two citations [actSummary] and
    [actFullText], whose pairs differ, the contract keeps both and the code
    returns the first alone, because both have the joined key
    [EU AI Act|summary|EUR-Lex]. *)
Theorem deduplicateCitations_drops_a_first_occurrence :
  pair_key actSummary <> pair_key actFullText /\
  dedupe_spec [actSummary; actFullText] = [actSummary; actFullText] /\
  deduplicateCitations (Some [actSummary; actFullText]) = [actSummary].
Proof.
  split; [discriminate|]. split; vm_compute; reflexivity.
Qed.

(** C2.  The claim: two citations are treated as duplicates if and only if
    their (document_title, document_source) pairs are equal.  The code
    departs from it: [rmfCore] and [rmfPlaybook] have different pairs and
    are collapsed into one. *)
Theorem deduplicateCitations_collapses_distinct_pairs :
  ~ same_pair rmfCore rmfPlaybook /\ collapsed rmfCore rmfPlaybook.
Proof.
  split; [discriminate|]. vm_compute. reflexivity.
Qed.

(** C3.  [deduplicateCitations] is idempotent, so the citations shown when
    the stored assistant message is rendered are the citations that were
    stored for it after the query. *)
Theorem deduplicateCitations_idempotent :
  (forall cs : option (list Citation),
     deduplicateCitations (Some (deduplicateCitations cs)) = deduplicateCitations cs) /\
  (forall (response : Api.SearchResponse) (st : AskAI.State),
     exists m : AskAI.Message,
       AskAI.tryBlock (AskAI.Normal response) st = AskAI.Normal (AskAI.pushMessage m st) /\
       AskAI.citations m = Some (deduplicateCitations (Api.citations response)) /\
       AskAI.renderedCitations m = deduplicateCitations (Api.citations response)).
Proof.
  assert (Hidem : forall cs : option (list Citation),
     deduplicateCitations (Some (deduplicateCitations cs)) = deduplicateCitations cs).
  { intros [cs|]; [|reflexivity].
    rewrite !deduplicateCitations_joined_key. apply first_occurrences_idem. }
  split; [exact Hidem|].
  intros response st. eexists. split; [reflexivity|]. split; [reflexivity|].
  unfold AskAI.renderedCitations. simpl. apply Hidem.
Qed.

(** ** Claims on the chat query *)

Section ChatQuery.
Import Api AskAI.

Lemma handleQuery_guard (query : string) (st : State) :
  JsString.truthy (JsString.trim query) = true -> isLoading st = false ->
  negb (JsString.truthy (JsString.trim query)) || isLoading st = false.
Proof. intros -> ->. reflexivity. Qed.

(** C6.  A query issued without a [top_k] is sent with [top_k] 5, and
    [handleQuery] sends nothing else: every request it sends is the one for
    its question with [top_k] 5, and it sends that request whenever the
    question is not blank and no query is in progress. *)
Theorem handleQuery_requests_top_k_5 (query : string)
    (reply : Completion SearchResponse) (st : State) :
  top_k (searchAPI_query query None) = 5 /\
  (forall request, In request (snd (handleQuery query reply st)) ->
     request = mkSearchRequest "/search/query" query 5) /\
  (JsString.truthy (JsString.trim query) = true -> isLoading st = false ->
     snd (handleQuery query reply st)
     = [mkSearchRequest "/search/query" query 5]).
Proof.
  split; [reflexivity|]. unfold handleQuery. split.
  - intros request.
    destruct (negb _ || _); simpl; [tauto|]. intros [<-|[]]. reflexivity.
  - intros Hq Hl. now rewrite (handleQuery_guard _ _ Hq Hl).
Qed.

Lemma handleQuery_requests_top_k_5_witness :
  In (mkSearchRequest "/search/query" "What is a high-risk system?" 5)
     (snd (handleQuery "What is a high-risk system?" (Throw sampleError) initialState)) /\
  snd (handleQuery "What is a high-risk system?" (Throw sampleError) initialState)
  = [mkSearchRequest "/search/query" "What is a high-risk system?" 5].
Proof.
  split.
  - left. reflexivity.
  - apply (handleQuery_requests_top_k_5 "What is a high-risk system?"
             (Throw sampleError) initialState); reflexivity.
Defined.

(** C7, the claim as stated fails: the notice shown for [sampleError]
    contains the detail of the back end, word for word. *)
Lemma handleQuery_notice_shows_backend_detail :
  exists st' m,
    fst (handleQuery "What is a high-risk system?" (Throw sampleError) initialState)
    = Normal st' /\
    last (messages st') = Some m /\
    JsString.includes
      "OperationalError: password authentication failed for user qdrant_admin"
      (content m) = true.
Proof. do 2 eexists. split; [reflexivity|]. split; vm_compute; reflexivity. Qed.

(** C7, amended.  When the call of a query fails, for every error, the
    handler completes normally: it has appended the question and then an
    assistant message whose text is the fixed sentence around the details of
    the error (the detail of the response, else the message of the error,
    else [Unknown error]), and it has cleared the loading state. *)
Theorem handleQuery_failure_is_answered (query : string) (error : ApiError) (st : State) :
  JsString.truthy (JsString.trim query) = true -> isLoading st = false ->
  fst (handleQuery query (Throw error) st)
  = Normal {| question := EmptyString;
              messages := messages st ++
                [ {| role := user; content := query; citations := None |};
                  {| role := assistant;
                     content :=
                       "Sorry, I encountered an error while processing your question: "
                         +++ errorDetails error +++ ". Please try again.";
                     citations := None |} ];
              isLoading := false |}.
Proof.
  intros Hq Hl. unfold handleQuery. rewrite (handleQuery_guard _ _ Hq Hl).
  unfold tryCatchFinally, tryBlock, catchBlock, finallyBlock, pushMessage,
    setIsLoading, setQuestion, errorContent. simpl.
  now rewrite <- app_assoc.
Qed.

Lemma handleQuery_failure_is_answered_witness :
  fst (handleQuery "What is a high-risk system?" (Throw sampleError) initialState)
  = Normal {| question := EmptyString;
              messages :=
                [ {| role := user; content := "What is a high-risk system?";
                     citations := None |};
                  {| role := assistant;
                     content :=
                       "Sorry, I encountered an error while processing your question: "
                         +++ errorDetails sampleError +++ ". Please try again.";
                     citations := None |} ];
              isLoading := false |}.
Proof.
  apply (handleQuery_failure_is_answered "What is a high-risk system?"
           sampleError initialState); reflexivity.
Defined.

End ChatQuery.

(** ** Claims on the crawl status *)

Section CrawlStatus.
Import JsString.

Lemma split_upTo (sep : ascii) (s : string) :
  exists rest, split sep s = upTo sep s :: rest.
Proof.
  induction s as [|c s [rest IH]]; simpl.
  - now exists [].
  - destruct (Ascii.eqb c sep); [now eexists|].
    rewrite IH. now exists rest.
Qed.

Lemma upTo_no_sep (sep : ascii) (s : string) :
  has_char sep s = false -> upTo sep s = s.
Proof.
  induction s as [|c s IH]; simpl; [reflexivity|].
  rewrite (Ascii.eqb_sym sep c).
  destruct (Ascii.eqb c sep); simpl; [discriminate|].
  intros Hs. now rewrite (IH Hs).
Qed.

Lemma trimStart_idem (s : string) : trimStart (trimStart s) = trimStart s.
Proof.
  induction s as [|c s IH]; simpl; [reflexivity|].
  destruct (isWhiteSpace c) eqn:Hc; [exact IH|]. simpl. now rewrite Hc.
Qed.

Lemma trim_trimStart (s : string) : trim (trimStart s) = trim s.
Proof. unfold trim. now rewrite trimStart_idem. Qed.

(** The expression takes [crawl: failed: ] and the white space after it. *)
Lemma removeCrawlFailed_prefix (r : string) :
  removeCrawlFailed ("crawl: failed: " +++ r) = trimStart r.
Proof. reflexivity. Qed.

(** What the code returns on [crawl: failed: <reason>], for every reason:
    the part of the reason before its first comma, without the white space
    around it. *)
Lemma parseCrawlStatus_failed (reason : string) :
  parseCrawlStatus (Some ("crawl: failed: " +++ reason))
  = {| status := "failed"; error := Some (trim (upTo "," reason)) |}.
Proof.
  unfold parseCrawlStatus.
  change (truthy ("crawl: failed: " +++ reason)) with true.
  change (toLowerCase ("crawl: failed: " +++ reason))
    with ("crawl: failed: " +++ toLowerCase reason).
  change (startsWith "crawl: success" ("crawl: failed: " +++ toLowerCase reason))
    with false.
  change (startsWith "crawl: failed" ("crawl: failed: " +++ toLowerCase reason))
    with true.
  cbv iota. cbn [negb].
  destruct (split_upTo "," ("crawl: failed: " +++ reason)) as [rest ->].
  change (upTo "," ("crawl: failed: " +++ reason))
    with ("crawl: failed: " +++ upTo "," reason).
  cbn [List.find].
  change (toLowerCase ("crawl: failed: " +++ upTo "," reason))
    with ("crawl: failed: " +++ toLowerCase (upTo "," reason)).
  change (startsWith "crawl:" ("crawl: failed: " +++ toLowerCase (upTo "," reason)))
    with true.
  cbv iota. now rewrite removeCrawlFailed_prefix, trim_trimStart.
Qed.

Lemma parseCrawlStatus_success (s : string) :
  startsWith "crawl: success" s = true ->
  parseCrawlStatus (Some s) = {| status := "success"; error := None |}.
Proof.
  intros Hs. apply startsWith_inv in Hs as [r ->]. reflexivity.
Qed.

(** A reason with a comma is cut at the comma. *)
Example parseCrawlStatus_reason_with_comma :
  parseCrawlStatus (Some "crawl: failed: HTTP 503 from host, giving up after 3 tries")
  = {| status := "failed"; error := Some "HTTP 503 from host" |}.
Proof. vm_compute. reflexivity. Qed.

(** C5, the claim as stated fails: the error that is returned is not the
    full text of the reason.  White space around the reason is removed, and
    a reason is cut at its first comma. *)
Lemma parseCrawlStatus_not_the_full_reason :
  parseCrawlStatus (Some ("crawl: failed: " +++ " connection refused "))
    = {| status := "failed"; error := Some "connection refused" |} /\
  parseCrawlStatus (Some ("crawl: failed: " +++ "timeout, retry later"))
    = {| status := "failed"; error := Some "timeout" |}.
Proof. split; vm_compute; reflexivity. Qed.

(** C5, amended.  On every status [crawl: failed: <reason>] the result has
    status [failed], and when the reason has no comma its error is the reason
    without the white space around it; on every status that begins with
    [crawl: success] the result is [success] with no error. *)
Theorem parseCrawlStatus_composite :
  (forall reason : string,
     status (parseCrawlStatus (Some ("crawl: failed: " +++ reason))) = "failed") /\
  (forall reason : string,
     has_char "," reason = false ->
     parseCrawlStatus (Some ("crawl: failed: " +++ reason))
     = {| status := "failed"; error := Some (trim reason) |}) /\
  (forall s : string,
     startsWith "crawl: success" s = true ->
     parseCrawlStatus (Some s) = {| status := "success"; error := None |}).
Proof.
  split; [|split].
  - intros reason. now rewrite parseCrawlStatus_failed.
  - intros reason Hc. now rewrite parseCrawlStatus_failed, (upTo_no_sep _ _ Hc).
  - exact parseCrawlStatus_success.
Qed.

Lemma parseCrawlStatus_composite_witness :
  parseCrawlStatus (Some ("crawl: failed: " +++ "Connection timed out"))
    = {| status := "failed"; error := Some (trim "Connection timed out") |} /\
  parseCrawlStatus (Some "crawl: success, qdrant: failed: store unavailable")
    = {| status := "success"; error := None |}.
Proof.
  destruct parseCrawlStatus_composite as (_ & Hfailed & Hsuccess). split.
  - apply (Hfailed "Connection timed out"). reflexivity.
  - apply (Hsuccess "crawl: success, qdrant: failed: store unavailable"). reflexivity.
Defined.

End CrawlStatus.

(** ** Claims on the crawl handlers *)

Section CrawlHandlers.

(** The handler of the Monitor page sends nothing for a disabled origin. *)
Lemma Monitor_handleCrawl_disabled (crawlingIds : gset Z) (origin : Origin.t) :
  Origin.enabled origin = false -> Monitor.handleCrawl crawlingIds origin = [].
Proof.
  intros He. unfold Monitor.handleCrawl. rewrite He.
  now rewrite orb_true_r.
Qed.

(** On both pages the button of a disabled origin sends nothing. *)
Lemma clickCrawl_disabled (handler : gset Z -> Origin.t -> list Effect)
    (crawlingIds : gset Z) (origin : Origin.t) :
  Origin.enabled origin = false -> clickCrawl handler crawlingIds origin = [].
Proof.
  intros He. unfold clickCrawl, crawlButtonDisabled. rewrite He.
  now rewrite orb_true_r.
Qed.

(** Two triggers in a row send one request. *)
Lemma invoke_twice (origin : Origin.t) (st : PageState) :
  Origin.id origin ∉ crawlingIds st -> Origin.enabled origin = true ->
  crawlRequests (invoke Monitor.handleCrawl origin (invoke Monitor.handleCrawl origin st))
    = (crawlRequests st ++ [Origin.id origin])%list /\
  crawlRequests (invoke Dashboard.handleCrawl origin (invoke Dashboard.handleCrawl origin st))
    = (crawlRequests st ++ [Origin.id origin])%list.
Proof.
  intros Hid He.
  assert (Hin : Origin.id origin ∈ {[Origin.id origin]} ∪ crawlingIds st)
    by (apply elem_of_union_l, elem_of_singleton; reflexivity).
  split.
  - unfold invoke at 2, Monitor.handleCrawl.
    rewrite (bool_decide_eq_false_2 _ Hid), He. simpl.
    unfold invoke, Monitor.handleCrawl. simpl.
    now rewrite (bool_decide_eq_true_2 _ Hin).
  - unfold invoke at 2, Dashboard.handleCrawl.
    rewrite (bool_decide_eq_false_2 _ Hid). simpl.
    unfold invoke, Dashboard.handleCrawl. simpl.
    now rewrite (bool_decide_eq_true_2 _ Hin).
Qed.

(** Once the crawl of an origin has settled, the next trigger is accepted. *)
Lemma invoke_after_settle (origin : Origin.t) (st : PageState) :
  Origin.enabled origin = true ->
  crawlRequests (invoke Monitor.handleCrawl origin (settleCrawl (Origin.id origin) st))
    = (crawlRequests st ++ [Origin.id origin])%list.
Proof.
  intros He. unfold invoke, Monitor.handleCrawl, settleCrawl. simpl.
  rewrite bool_decide_eq_false_2, He; [reflexivity|].
  rewrite elem_of_difference, elem_of_singleton. tauto.
Qed.

(** C4, the claim as stated fails: a trigger for an origin whose crawl is in
    flight has no effect of any kind on either page, so nothing is reported
    to the caller. *)
Lemma handleCrawl_in_flight_reports_nothing :
  Monitor.handleCrawl {[7]} (sampleOrigin 7 true None None) = [] /\
  Dashboard.handleCrawl {[7]} (sampleOrigin 7 true None None) = [].
Proof. split; vm_compute; reflexivity. Qed.

(** C4, amended.  When an origin has a crawl in flight, a second trigger for
    it sends no second crawl request; the handler of either page does nothing
    at all and leaves the page as it is. *)
Theorem handleCrawl_in_flight_is_ignored (origin : Origin.t) (st : PageState) :
  Origin.id origin ∈ crawlingIds st ->
  Monitor.handleCrawl (crawlingIds st) origin = [] /\
  Dashboard.handleCrawl (crawlingIds st) origin = [] /\
  invoke Monitor.handleCrawl origin st = st /\
  invoke Dashboard.handleCrawl origin st = st.
Proof.
  intros Hin. unfold invoke, Monitor.handleCrawl, Dashboard.handleCrawl.
  rewrite (bool_decide_eq_true_2 _ Hin). simpl. auto.
Qed.

Lemma handleCrawl_in_flight_is_ignored_witness :
  invoke Monitor.handleCrawl (sampleOrigin 7 true None None)
         {| crawlingIds := {[7]}; crawlRequests := [7] |}
    = {| crawlingIds := {[7]}; crawlRequests := [7] |} /\
  invoke Dashboard.handleCrawl (sampleOrigin 7 true None None)
         {| crawlingIds := {[7]}; crawlRequests := [7] |}
    = {| crawlingIds := {[7]}; crawlRequests := [7] |}.
Proof.
  assert (Hin : Origin.id (sampleOrigin 7 true None None)
                ∈ crawlingIds {| crawlingIds := {[7]}; crawlRequests := [7] |})
    by (simpl; apply elem_of_singleton_2; reflexivity).
  destruct (handleCrawl_in_flight_is_ignored _ _ Hin) as (_ & _ & Hm & Hd).
  split; assumption.
Defined.

(** C8, the claim as stated fails: the handler of the dashboard does not
    look at [enabled]; invoked for the disabled origin 7 it sends the crawl
    request, where the handler of the Monitor page sends nothing. *)
Theorem Dashboard_handleCrawl_disabled_origin :
  Origin.enabled (sampleOrigin 7 false None None) = false /\
  requestsOf (Dashboard.handleCrawl ∅ (sampleOrigin 7 false None None)) = [7] /\
  requestsOf (Monitor.handleCrawl ∅ (sampleOrigin 7 false None None)) = [].
Proof. split; [reflexivity|]. split; vm_compute; reflexivity. Qed.

(** C8, amended.  A crawl is never triggered for a disabled origin: on both
    pages the crawl button of an origin with [enabled = false] is disabled,
    so a click on it issues no crawl request, whatever crawls are in flight;
    the handler of the Monitor page also issues none when it is invoked
    itself. *)
Theorem crawl_not_triggered_for_disabled_origin (crawling : gset Z) (origin : Origin.t) :
  Origin.enabled origin = false ->
  crawlButtonDisabled crawling origin = true /\
  clickCrawl Monitor.handleCrawl crawling origin = [] /\
  clickCrawl Dashboard.handleCrawl crawling origin = [] /\
  Monitor.handleCrawl crawling origin = [].
Proof.
  intros He. split.
  - unfold crawlButtonDisabled. rewrite He. apply orb_true_r.
  - split; [now apply clickCrawl_disabled|].
    split; [now apply clickCrawl_disabled | now apply Monitor_handleCrawl_disabled].
Qed.

Lemma crawl_not_triggered_for_disabled_origin_witness :
  clickCrawl Dashboard.handleCrawl ∅ (sampleOrigin 7 false None None) = [] /\
  clickCrawl Monitor.handleCrawl ∅ (sampleOrigin 7 false None None) = [].
Proof.
  destruct (crawl_not_triggered_for_disabled_origin ∅ (sampleOrigin 7 false None None))
    as (_ & Hm & Hd & _); [reflexivity|].
  split; assumption.
Defined.

End CrawlHandlers.

(** ** Claims on the statistics of the Monitor page *)

Section Statistics.
Import JsString.
Variable parseDate : string -> option Z.
Variable now : Z.

Lemma truthy_nonempty (s : string) : truthy s = true <-> s <> EmptyString.
Proof. destruct s; simpl; split; congruence. Qed.

(** The callback of the filters holds exactly of the origins that the claim
    describes. *)
Lemma ranWithStatus_spec (prefix : string) (o : Origin.t) :
  Monitor.ranWithStatus parseDate now prefix o = true
  <-> ranInLast24h parseDate now prefix o.
Proof.
  unfold Monitor.ranWithStatus, ranInLast24h, Monitor.last24h,
    Monitor.dateGe, Monitor.statusStartsWith.
  replace (24 * 60 * 60 * 1000) with 86400000 by reflexivity.
  split.
  - destruct (Origin.last_run o) as [run|]; [|discriminate].
    destruct (truthy run) eqn:Hrun; simpl; [|discriminate].
    destruct (parseDate run) as [t|] eqn:Ht; simpl; [|discriminate].
    destruct (Origin.last_status o) as [s|];
      [|rewrite andb_false_r; discriminate].
    intros [Hge Hs]%andb_true_iff.
    exists run, t, s. apply truthy_nonempty in Hrun. apply Z.leb_le in Hge.
    repeat split; assumption.
  - intros (run & t & s & -> & Hrun & Ht & Hge & -> & Hs).
    apply truthy_nonempty in Hrun. rewrite Hrun, Ht. simpl.
    apply andb_true_iff. split; [now apply Z.leb_le | exact Hs].
Qed.

Lemma Counts_filter {A : Type} (P : A -> Prop) (p : A -> bool) (l : list A) :
  (forall x, p x = true <-> P x) -> Counts P l (length (List.filter p l)).
Proof.
  intros Hp. induction l as [|x l IH]; simpl; [constructor|].
  destruct (p x) eqn:Hx; simpl.
  - apply Counts_in; [now apply Hp | exact IH].
  - apply Counts_out; [|exact IH]. rewrite <- Hp. congruence.
Qed.

(** At most one number counts the elements that satisfy a property. *)
Lemma Counts_unique {A : Type} (P : A -> Prop) (l : list A) (n m : nat) :
  Counts P l n -> Counts P l m -> n = m.
Proof.
  intros Hn. revert m. induction Hn; intros m Hm; inversion Hm; subst;
    try reflexivity; try contradiction; auto.
Qed.

Lemma composite_not_counted (a : ascii) (prefix : string) (o : Origin.t) :
  Ascii.eqb a "c" = false ->
  compositeStatus o ->
  Monitor.ranWithStatus parseDate now (String a prefix) o = false.
Proof.
  intros Ha (s & Hs & Hc).
  apply startsWith_inv in Hc as [r ->].
  unfold Monitor.ranWithStatus, Monitor.statusStartsWith. rewrite Hs.
  destruct (Origin.last_run o) as [run|]; [|reflexivity].
  destruct (negb (truthy run)); [reflexivity|].
  apply andb_false_iff. right.
  change (toLowerCase ("crawl: " +++ r)) with ("crawl: " +++ toLowerCase r).
  simpl. now rewrite Ha.
Qed.

Lemma filter_none {A : Type} (p : A -> bool) (l : list A) :
  Forall (fun x => p x = false) l -> List.filter p l = [].
Proof.
  induction 1 as [|x l Hx _ IH]; simpl; [reflexivity|]. now rewrite Hx.
Qed.

(** C9, amended.  The statistics count as successful (as failed) exactly
    the origins that have a last run dated no earlier than 24 hours before
    now, a last run dated after now included, and whose last status, in lower
    case, begins with [success] (with [failed]); an origin whose last status
    is in the composite format, which begins with [crawl: ], is counted in
    neither number. *)
Theorem stats_last_24_hours (origins : list Origin.t) :
  exists st : Monitor.Stats,
    Monitor.stats parseDate now (Some origins) = Some st /\
    Counts (ranInLast24h parseDate now "success") origins (Monitor.successful st) /\
    Counts (ranInLast24h parseDate now "failed") origins (Monitor.failed st) /\
    (forall o, compositeStatus o ->
       ~ ranInLast24h parseDate now "success" o /\
       ~ ranInLast24h parseDate now "failed" o) /\
    (Forall compositeStatus origins ->
       Monitor.successful st = 0%nat /\ Monitor.failed st = 0%nat).
Proof.
  eexists. split; [reflexivity|]. simpl.
  split; [apply Counts_filter, ranWithStatus_spec|].
  split; [apply Counts_filter, ranWithStatus_spec|].
  assert (Hnot : forall a prefix o,
            Ascii.eqb a "c" = false ->
            compositeStatus o -> ~ ranInLast24h parseDate now (String a prefix) o).
  { intros a prefix o Ha Ho. rewrite <- ranWithStatus_spec.
    now rewrite (composite_not_counted _ _ _ Ha Ho). }
  split.
  - intros o Ho. split; apply Hnot; try exact Ho; reflexivity.
  - intros Hall. split; (rewrite filter_none; [reflexivity|]);
      (eapply Forall_impl; [exact Hall|]); intros o Ho;
      apply composite_not_counted; try exact Ho; reflexivity.
Qed.

End Statistics.

Lemma stats_last_24_hours_witness :
  exists st : Monitor.Stats,
    Monitor.stats sampleDate 1704286800000 (Some sampleOrigins) = Some st /\
    Monitor.successful st = 0%nat /\ Monitor.failed st = 0%nat.
Proof.
  destruct (stats_last_24_hours sampleDate 1704286800000 sampleOrigins)
    as (st & Hst & _ & _ & _ & Hzero).
  exists st. split; [exact Hst|]. apply Hzero.
  repeat constructor; eexists; split; reflexivity.
Defined.

(** C9, the claim as stated fails: a last run that is dated after now is not
    within the past 24 hours, and the statistics count it. *)
Lemma stats_counts_a_run_after_now :
  ~ ranInPast24h sampleDate 1704067200000 "success" aheadOrigin /\
  Monitor.stats sampleDate 1704067200000 (Some [aheadOrigin])
  = Some {| Monitor.total := 1; Monitor.enabled := 1;
            Monitor.successful := 1; Monitor.failed := 0 |}.
Proof.
  split.
  - intros (run & t & s & Hrun & _ & Ht & [_ Hle] & _).
    injection Hrun as <-. vm_compute in Ht. injection Ht as <-. lia.
  - vm_compute. reflexivity.
Qed.

(** ** Claims on the activity feed of the Monitor page *)

Section Sorting.
Context {A : Type} (cmp : A -> A -> Z).

Lemma insertSorted_length (x : A) (l : list A) :
  length (Monitor.insertSorted cmp x l) = S (length l).
Proof.
  induction l as [|y l IH]; simpl; [reflexivity|].
  destruct (cmp x y <=? 0); simpl; [reflexivity | now rewrite IH].
Qed.

Lemma sort_length (l : list A) : length (Monitor.sort cmp l) = length l.
Proof.
  induction l as [|x l IH]; [reflexivity|].
  change (Monitor.sort cmp (x :: l))
    with (Monitor.insertSorted cmp x (Monitor.sort cmp l)).
  rewrite insertSorted_length, IH. reflexivity.
Qed.

Lemma insertSorted_In (a x : A) (l : list A) :
  In a (Monitor.insertSorted cmp x l) <-> a = x \/ In a l.
Proof.
  induction l as [|y l IH]; simpl; [intuition congruence|].
  destruct (cmp x y <=? 0); simpl; [intuition congruence|].
  rewrite IH. intuition congruence.
Qed.

Lemma sort_In (a : A) (l : list A) : In a (Monitor.sort cmp l) <-> In a l.
Proof.
  induction l as [|x l IH]; [simpl; tauto|].
  change (Monitor.sort cmp (x :: l))
    with (Monitor.insertSorted cmp x (Monitor.sort cmp l)).
  rewrite insertSorted_In, IH. simpl. intuition congruence.
Qed.

(** The sort puts the elements in the order [R] whenever the comparison
    function decides [R] on the elements of the list. *)
Variable R : A -> A -> Prop.
Variable ok : A -> Prop.
Hypothesis R_trans : forall x y z, R x y -> R y z -> R x z.
Hypothesis cmp_le : forall x y, ok x -> ok y -> cmp x y <= 0 -> R x y.
Hypothesis cmp_gt : forall x y, ok x -> ok y -> 0 < cmp x y -> R y x.

Lemma insertSorted_sorted (x : A) (l : list A) :
  ok x -> Forall ok l ->
  StronglySorted R l -> StronglySorted R (Monitor.insertSorted cmp x l).
Proof.
  intros Hx Hl Hs. induction Hs as [|y l Hs IH Hy]; simpl.
  - repeat constructor.
  - apply Forall_cons in Hl as [Hoky Hl].
    destruct (Z.leb_spec (cmp x y) 0) as [Hle|Hgt].
    + assert (Rxy : R x y) by now apply cmp_le.
      constructor; [now constructor|].
      constructor; [exact Rxy|].
      eapply Forall_impl; [exact Hy|]. intros z. now apply R_trans.
    + constructor; [now apply IH|].
      apply List.Forall_forall. intros z Hz.
      apply insertSorted_In in Hz as [->|Hz].
      * now apply cmp_gt.
      * rewrite List.Forall_forall in Hy. now apply Hy.
Qed.

Lemma sort_sorted (l : list A) :
  Forall ok l -> StronglySorted R (Monitor.sort cmp l).
Proof.
  induction 1 as [|x l Hx Hl IH]; [constructor|].
  change (StronglySorted R (Monitor.insertSorted cmp x (Monitor.sort cmp l))).
  apply insertSorted_sorted; [exact Hx | | exact IH].
  apply List.Forall_forall. intros z Hz. rewrite sort_In in Hz.
  rewrite List.Forall_forall in Hl. now apply Hl.
Qed.


End Sorting.

Section ActivityFeed.
Import JsString.
Variable parseDate : string -> option Z.

Lemma noOlder_trans (x y z : Monitor.Activity.t) :
  noOlder x y -> noOlder y z -> noOlder x z.
Proof.
  intros (tx & ty & Hx & Hy & Hxy) (ty' & tz & Hy' & Hz & Hyz).
  exists tx, tz. rewrite Hy in Hy'. injection Hy' as <-.
  repeat split; [assumption..|lia].
Qed.

Lemma compareFn_le (x y : Monitor.Activity.t) :
  dated x -> dated y -> Monitor.compareFn x y <= 0 -> noOlder x y.
Proof.
  intros [tx Hx] [ty Hy]. unfold Monitor.compareFn. rewrite Hx, Hy.
  intros Hle. exists tx, ty. repeat split; [assumption..|lia].
Qed.

Lemma compareFn_gt (x y : Monitor.Activity.t) :
  dated x -> dated y -> 0 < Monitor.compareFn x y -> noOlder y x.
Proof.
  intros [tx Hx] [ty Hy]. unfold Monitor.compareFn. rewrite Hx, Hy.
  intros Hgt. exists ty, tx. repeat split; [assumption..|lia].
Qed.

Lemma toActivity_dated (origins : list Origin.t) :
  Forall (validRun parseDate) origins ->
  Forall dated (List.map (Monitor.toActivity parseDate)
                  (List.filter Monitor.hasLastRun origins)).
Proof.
  induction 1 as [|o l Ho _ IH]; simpl; [constructor|].
  destruct (Monitor.hasLastRun o) eqn:Hrun; simpl; [|exact IH].
  constructor; [|exact IH].
  unfold dated, Monitor.toActivity, Monitor.hasLastRun in *. simpl.
  destruct (Origin.last_run o) as [run|] eqn:Hlast; [|discriminate].
  apply Ho; [exact Hlast|]. now destruct run.
Qed.

(** The feed of the sample origins: the origin crawled last comes first, the
    two origins crawled at the same moment follow in the order of the input,
    and the origin that never ran is left out. *)
Example activityFeed_sample :
  List.map Monitor.Activity.id
    (Monitor.activityFeed sampleDate (Some sameMomentOrigins)) = [4; 1; 2].
Proof. vm_compute. reflexivity. Qed.



End ActivityFeed.


(** * Further properties *)

(** ** The citations and the chat page *)

Section ChatPage.
Import Api AskAI Chat.

Lemma first_occurrences_covers {K : Type} `{EqDecision K}
    (key : Citation -> K) (c : Citation) (cs : list Citation) :
  In c cs -> exists d, In d (first_occurrences key cs) /\ key d = key c.
Proof.
  induction cs as [|x cs IH]; simpl; [tauto|].
  intros [->|Hc]; [exists c; auto|].
  destruct (IH Hc) as (d & Hd & Hk).
  destruct (decide (key d = key x)) as [Hx|Hx].
  - exists x. split; [now left | congruence].
  - exists d. split; [|exact Hk]. right. apply filter_In. split; [exact Hd|].
    now apply negb_true_iff, bool_decide_eq_false.
Qed.

(** X1.  The result of [deduplicateCitations] is the input with some
    citations left out and none moved, no two of its citations have the same
    key, and the key of every citation of the input is the key of a citation
    of the result. *)
Theorem deduplicateCitations_sublist_NoDup_covers (cs : list Citation) :
  sublist (deduplicateCitations (Some cs)) cs /\
  NoDup (citation_key <$> deduplicateCitations (Some cs)) /\
  (forall c, In c cs ->
     exists d, In d (deduplicateCitations (Some cs)) /\ citation_key d = citation_key c).
Proof.
  rewrite deduplicateCitations_joined_key.
  split; [apply first_occurrences_sublist|].
  split; [apply first_occurrences_NoDup|].
  intros c. apply first_occurrences_covers.
Qed.

(** X2.  A question that is blank, or any question while a query is in
    progress, changes nothing and sends nothing, through [handleQuery] and
    through [handleSubmit] alike. *)
Theorem handleQuery_blank_or_loading (query : string)
    (reply : Completion SearchResponse) (st : State) :
  JsString.truthy (JsString.trim query) = false \/ isLoading st = true ->
  handleQuery query reply st = (Normal st, []) /\
  handleSubmit reply (setQuestion query st) = (Normal (setQuestion query st), []).
Proof.
  intros Hguard. unfold handleSubmit, handleQuery. simpl.
  destruct Hguard as [-> | ->]; simpl.
  - now rewrite andb_false_r.
  - now rewrite orb_true_r.
Qed.

Lemma handleQuery_blank_or_loading_witness :
  handleQuery "   " (Throw sampleError) initialState = (Normal initialState, []).
Proof.
  apply (handleQuery_blank_or_loading "   " (Throw sampleError) initialState).
  left. reflexivity.
Defined.

(** [handleSubmit] is [handleQuery] on the question that was typed. *)
Lemma handleSubmit_handleQuery (reply : Completion SearchResponse) (st : State) :
  handleSubmit reply st = handleQuery (question st) reply st.
Proof.
  unfold handleSubmit, handleQuery.
  destruct (isLoading st); simpl; [now rewrite orb_true_r|].
  rewrite orb_false_r. now destruct (JsString.truthy _).
Qed.

(** X3.  When the call of a query succeeds, the handler has appended the
    question and then the answer of the response with its citations
    de-duplicated, it has emptied the question field and it has cleared the
    loading state. *)
Theorem handleQuery_success (query : string) (response : SearchResponse) (st : State) :
  JsString.truthy (JsString.trim query) = true -> isLoading st = false ->
  fst (handleQuery query (Normal response) st)
  = Normal {| question := EmptyString;
              messages := messages st ++
                [ {| role := user; content := query; citations := None |};
                  {| role := assistant;
                     content := answer response;
                     citations :=
                       Some (deduplicateCitations (Api.citations response)) |} ];
              isLoading := false |}.
Proof.
  intros Hq Hl. unfold handleQuery. rewrite (handleQuery_guard _ _ Hq Hl).
  unfold tryCatchFinally, tryBlock, finallyBlock, pushMessage,
    setIsLoading, setQuestion. simpl.
  now rewrite <- app_assoc.
Qed.

Lemma handleQuery_success_witness :
  fst (handleQuery "What is a high-risk system?"
         (Normal {| answer := "See Article 6.";
                    Api.citations := Some [actSummary; actFullText] |})
         initialState)
  = Normal {| question := EmptyString;
              messages :=
                [ {| role := user; content := "What is a high-risk system?";
                     citations := None |};
                  {| role := assistant; content := "See Article 6.";
                     citations :=
                       Some (deduplicateCitations (Some [actSummary; actFullText])) |} ];
              isLoading := false |}.
Proof.
  apply (handleQuery_success "What is a high-risk system?"
           {| answer := "See Article 6.";
              Api.citations := Some [actSummary; actFullText] |}
           initialState); reflexivity.
Defined.

(** X4.  However the call settles, [handleQuery] completes normally, it
    keeps the messages that were there and adds none or two, and it does not
    leave the loading state set when it was not set before. *)
Theorem handleQuery_completes (query : string)
    (reply : Completion SearchResponse) (st : State) :
  exists st' added,
    fst (handleQuery query reply st) = Normal st' /\
    messages st' = (messages st ++ added)%list /\
    (added = [] \/ length added = 2%nat) /\
    (isLoading st = false -> isLoading st' = false).
Proof.
  unfold handleQuery.
  destruct (negb (JsString.truthy (JsString.trim query)) || isLoading st) eqn:Hg.
  - exists st, []. simpl. rewrite app_nil_r. auto.
  - destruct reply as [response|error]; simpl;
      eexists; eexists; (split; [reflexivity|]); simpl;
      (split; [rewrite <- app_assoc; reflexivity|]); auto.
Qed.

(** X5.  The landing page passes on a question only when it is not blank.
    The chat page then sends one request for it, with [top_k] 5, and marks
    the question as processed; once a question is marked, the effect does
    nothing, whatever the state and the question are. *)
Theorem initialQuestion_asked_once (q : string) (reply : Completion SearchResponse) :
  (handleAsk q = None <-> JsString.truthy (JsString.trim q) = false) /\
  (JsString.truthy (JsString.trim q) = true ->
     handleAsk q = Some q /\
     fst (initialQuestionEffect (handleAsk q) false reply initialState) = true /\
     snd (snd (initialQuestionEffect (handleAsk q) false reply initialState))
       = [mkSearchRequest "/search/query" q 5]) /\
  (forall initialQuestion reply' st,
     initialQuestionEffect initialQuestion true reply' st = (true, (Normal st, []))).
Proof.
  split; [|split].
  - unfold handleAsk. destruct (JsString.truthy (JsString.trim q)); split; congruence.
  - intros Hq. unfold handleAsk. rewrite Hq. split; [reflexivity|].
    unfold initialQuestionEffect.
    assert (Hne : JsString.truthy q = true).
    { destruct q; [discriminate Hq | reflexivity]. }
    rewrite Hne. simpl. split; [reflexivity|].
    unfold handleQuery. simpl. now rewrite Hq.
  - intros [iq|] reply' st; unfold initialQuestionEffect; [|reflexivity].
    now rewrite andb_false_r.
Qed.

Lemma initialQuestion_asked_once_witness :
  snd (snd (initialQuestionEffect (handleAsk "What is the AI Act?") false
              (Throw sampleError) initialState))
  = [mkSearchRequest "/search/query" "What is the AI Act?" 5].
Proof.
  destruct (initialQuestion_asked_once "What is the AI Act?" (Throw sampleError))
    as (_ & Hask & _).
  apply Hask. reflexivity.
Defined.

End ChatPage.

(** ** The token and the interceptors *)

Section HttpClient.
Import Client.

Lemma onRequest_no_token (ls : gmap string string) (config : RequestConfig) :
  ls !! "auth_token" = None -> onRequest ls config = config.
Proof. intros H. unfold onRequest. now rewrite H. Qed.

(** X6.  After a login that returned a token, every request that goes
    through the client carries the header [Authorization: Bearer <token>],
    in place of any such header it had, and its other headers and its URL are
    unchanged; the token that was stored before does not matter. *)
Theorem login_then_request (token : string) (ls : gmap string string)
    (config : RequestConfig) :
  JsString.truthy token = true ->
  let sent := onRequest (login (inl (Some token)) ls) config in
  url sent = url config /\
  headers sent !! "Authorization" = Some ("Bearer " +++ token) /\
  (forall h, h <> "Authorization" -> headers sent !! h = headers config !! h).
Proof.
  intros Ht. simpl. unfold login, onRequest. rewrite Ht.
  rewrite lookup_insert_eq, Ht. simpl.
  split; [reflexivity|]. split; [apply lookup_insert_eq|].
  intros h Hh. now apply lookup_insert_ne.
Qed.

Lemma login_then_request_witness :
  headers (onRequest (login (inl (Some "eyJhbGciOi")) ∅) sampleConfig) !! "Authorization"
  = Some ("Bearer " +++ "eyJhbGciOi").
Proof.
  apply (login_then_request "eyJhbGciOi" ∅ sampleConfig). reflexivity.
Defined.

(** X7.  When the back end answers a call with status 401, the caller gets
    that error, the stored token is removed, and the requests that follow are
    sent as they are, without credentials.  The same holds after [logout]. *)
Theorem unauthorized_drops_token {A : Type} (server : RequestConfig -> A + HttpError)
    (config next : RequestConfig) (ls : gmap string string) (error : HttpError) :
  server (onRequest ls config) = inr error ->
  response_status error = Some 401 ->
  snd (send server config ls) = inr error /\
  fst (send server config ls) !! "auth_token" = None /\
  onRequest (fst (send server config ls)) next = next /\
  onRequest (logout ls) next = next.
Proof.
  intros Hs He. unfold send. rewrite Hs. simpl.
  unfold onResponseError. rewrite (bool_decide_eq_true_2 _ He).
  split; [reflexivity|]. split; [apply lookup_delete_eq|].
  split; apply onRequest_no_token; apply lookup_delete_eq.
Qed.

Lemma unauthorized_drops_token_witness :
  fst (send (fun _ => inr unauthorized : unit + HttpError) sampleConfig
         {[ "auth_token" := "expired" ]}) !! "auth_token" = None.
Proof.
  apply (unauthorized_drops_token (fun _ => inr unauthorized : unit + HttpError)
           sampleConfig sampleConfig {[ "auth_token" := "expired" ]} unauthorized);
    reflexivity.
Defined.

(** X8.  A call through the client gives the caller what the back end
    answered to the request with the token added, and it leaves the storage
    as it is unless that answer is an error with status 401. *)
Theorem send_keeps_storage {A : Type} (server : RequestConfig -> A + HttpError)
    (config : RequestConfig) (ls : gmap string string) :
  snd (send server config ls) = server (onRequest ls config) /\
  ((forall error, server (onRequest ls config) = inr error ->
                  response_status error <> Some 401) ->
   fst (send server config ls) = ls).
Proof.
  unfold send. destruct (server (onRequest ls config)) as [data|error] eqn:Hs; simpl.
  - auto.
  - split; [reflexivity|]. intros Hne. unfold onResponseError.
    now rewrite bool_decide_eq_false_2 by now apply Hne.
Qed.

Lemma send_keeps_storage_witness :
  fst (send (fun _ => inl 3 : Z + HttpError) sampleConfig {[ "auth_token" := "t" ]})
  = {[ "auth_token" := "t" ]}.
Proof.
  apply (send_keeps_storage (fun _ => inl 3 : Z + HttpError) sampleConfig
           {[ "auth_token" := "t" ]}).
  intros error [=].
Defined.

End HttpClient.

(** ** The session check and the guards of the admin routes *)

Section AdminRoutes.
Import Auth.

(** X9.  An admin route shows its page exactly when the session check is
    over and the user is an admin; while the check runs it shows the loading
    view, without a user it goes to the login page, and a user who is not an
    admin is sent to the landing page. *)
Theorem adminRoute_cases (st : AuthState) :
  (adminRoute st = Children <->
     loading st = false /\ exists u, user st = Some u /\ role u = admin) /\
  (loading st = true -> adminRoute st = LoadingView) /\
  (loading st = false -> user st = None -> adminRoute st = Navigate "/admin/login") /\
  (forall u, loading st = false -> user st = Some u -> role u = viewer ->
             adminRoute st = Navigate "/").
Proof.
  unfold adminRoute, ProtectedRoute, AdminLayout, isAuthenticated, isAdmin.
  destruct st as [[u|] [|]]; simpl; try destruct (role u) eqn:Hr; simpl;
    repeat split; intros; try discriminate; try congruence; try (by eauto);
    match goal with
    | H : _ /\ (exists _, _) |- _ => destruct H as (Hl & u' & Hu & Hr'); congruence
    end.
Qed.

Lemma adminRoute_cases_witness :
  adminRoute {| user := Some sampleAdmin; loading := false |} = Children.
Proof.
  apply (adminRoute_cases {| user := Some sampleAdmin; loading := false |}).
  split; [reflexivity|]. exists sampleAdmin. split; reflexivity.
Defined.

(** X10.  The session check ends the loading state, from every state.
    Either the back end answered with a user, who becomes the user while the
    storage is unchanged; or the user is left as it was and no token will be
    sent any more (a token that the back end refused has been removed).  So
    when the check ends without a user, no token is sent any more and the
    admin routes go to the login page. *)
Theorem checkAuth_outcome (server : Client.RequestConfig -> User + Client.HttpError)
    (ls : gmap string string) (st : AuthState) :
  let ls' := fst (checkAuth server ls st) in
  let st' := snd (checkAuth server ls st) in
  loading st' = false /\
  ((exists u,
      server (Client.onRequest ls
                {| Client.url := "/auth/me"; Client.headers := Client.defaultHeaders |})
      = inl u /\
      user st' = Some u /\ ls' = ls) \/
   (user st' = user st /\ forall config, Client.onRequest ls' config = config)) /\
  (user st' = None ->
     (forall config, Client.onRequest ls' config = config) /\
     adminRoute st' = Navigate "/admin/login").
Proof.
  simpl.
  assert (Hcases :
    loading (snd (checkAuth server ls st)) = false /\
    ((exists u,
        server (Client.onRequest ls
                  {| Client.url := "/auth/me"; Client.headers := Client.defaultHeaders |})
        = inl u /\
        user (snd (checkAuth server ls st)) = Some u /\
        fst (checkAuth server ls st) = ls) \/
     (user (snd (checkAuth server ls st)) = user st /\
      forall config, Client.onRequest (fst (checkAuth server ls st)) config = config))).
  { unfold checkAuth.
    destruct (ls !! "auth_token") as [token|] eqn:Htok.
    - destruct (JsString.truthy token) eqn:Ht.
      + unfold Client.send.
        destruct (server _) as [u|e] eqn:Hs; simpl.
        * split; [reflexivity|]. left. exists u. auto.
        * split; [reflexivity|]. right. split; [reflexivity|].
          intros config. apply onRequest_no_token, lookup_delete_eq.
      + simpl. split; [reflexivity|]. right. split; [reflexivity|].
        intros config. unfold Client.onRequest. now rewrite Htok, Ht.
    - simpl. split; [reflexivity|]. right. split; [reflexivity|].
      intros config. now apply onRequest_no_token. }
  destruct Hcases as [Hload Hcases].
  split; [exact Hload|]. split; [exact Hcases|].
  intros Hnone. split.
  - destruct Hcases as [(u & _ & Hu & _)|[_ Hsent]]; [congruence | exact Hsent].
  - unfold adminRoute, ProtectedRoute, isAuthenticated.
    now rewrite Hload, Hnone.
Qed.

Lemma checkAuth_outcome_witness :
  adminRoute (snd (checkAuth (fun _ => inr unauthorized)
                     {[ "auth_token" := "expired" ]} initialAuth))
  = Navigate "/admin/login".
Proof.
  apply (checkAuth_outcome (fun _ => inr unauthorized) {[ "auth_token" := "expired" ]}
           initialAuth).
  reflexivity.
Defined.

End AdminRoutes.

(** ** The form of the admin dashboard *)

Section DashboardForm.
Import OriginForm.

(** X11.  Editing an origin and submitting the form without a change sends
    one update, for the id of that origin, with the four values the origin
    has; for an origin whose id is 0 the form sends a creation instead. *)
Theorem edit_then_submit (origin : Origin.t) (st : State) :
  handleSubmit (handleEdit origin st)
  = if Origin.id origin =? 0
    then [CreateOrigin
            {| name := Origin.name origin; url := Origin.url origin;
               frequency_hours := Origin.frequency_hours origin;
               enabled := Origin.enabled origin |}]
    else [UpdateOrigin (Origin.id origin)
            {| patch_name := Some (Origin.name origin);
               patch_url := Some (Origin.url origin);
               patch_frequency_hours := Some (Origin.frequency_hours origin);
               patch_enabled := Some (Origin.enabled origin) |}].
Proof.
  unfold handleSubmit, handleEdit. simpl. now destruct (Origin.id origin =? 0).
Qed.

(** X12.  When an update has succeeded, by a submitted edit or by the
    enable/disable button of any origin, the form is as visible as it was,
    and an edit that was open has become the form of a new origin with the
    default values: submitting it creates an origin. *)
Theorem update_success_resets_edit (origin : Origin.t) (st : State) :
  let st' := onUpdateSuccess (handleEdit origin st) in
  (forall st0, showForm (onUpdateSuccess st0) = showForm st0) /\
  showForm st' = true /\
  formTitle st' = "Add New Origin" /\
  handleSubmit st' = [CreateOrigin blankForm].
Proof. simpl. repeat split. Qed.

End DashboardForm.

(** ** The Monitor page: expanded errors, crawls in flight, statistics, feed *)

Section MonitorPage.
Import MonitorView.

(** X13.  Toggling the error details of an origin twice leaves the set of
    expanded origins as it was; toggling once flips that origin and no
    other. *)
Theorem toggleErrorExpansion_flips (i : Z) (expanded : gset Z) :
  toggleErrorExpansion i (toggleErrorExpansion i expanded) = expanded /\
  (i ∈ toggleErrorExpansion i expanded <-> i ∉ expanded) /\
  (forall j, j <> i -> (j ∈ toggleErrorExpansion i expanded <-> j ∈ expanded)).
Proof.
  unfold toggleErrorExpansion.
  destruct (decide (i ∈ expanded)) as [Hin|Hout].
  - rewrite decide_False by set_solver.
    split; [|split]; [|set_solver..].
    apply set_eq. intros j. destruct (decide (j = i)); set_solver.
  - rewrite decide_True by set_solver.
    split; [|split]; set_solver.
Qed.

Lemma removeFirst_elem_of (i j : Z) (l : list Z) :
  NoDup l -> (j ∈ removeFirst i l <-> j ∈ l /\ j <> i).
Proof.
  induction 1 as [|x l Hx Hl IH]; simpl; [set_solver|].
  destruct (Z.eqb_spec i x) as [->|Hne].
  - rewrite elem_of_cons. split; [|tauto].
    intros Hj. split; [now right|]. now intros ->.
  - rewrite !elem_of_cons, IH. split; [|tauto].
    intros [->|[Hj Hji]]; [split; [now left | congruence] | tauto].
Qed.

Lemma removeFirst_NoDup (i : Z) (l : list Z) : NoDup l -> NoDup (removeFirst i l).
Proof.
  induction 1 as [|x l Hx Hl IH]; simpl; [constructor|].
  destruct (i =? x); [exact Hl|].
  constructor; [|exact IH]. rewrite removeFirst_elem_of by exact Hl. tauto.
Qed.

Lemma crawlStep_singleFlight (handler : gset Z -> Origin.t -> list Effect) :
  (forall crawling origin,
     crawlButtonDisabled crawling origin = false ->
     handler crawling origin
     = [AddCrawlingId (Origin.id origin); MutateCrawl (Origin.id origin)]) ->
  forall st e, singleFlight st -> singleFlight (crawlStep handler st e).
Proof.
  intros Hh st e [Hnd Hids]. destruct e as [origin|i]; simpl.
  - unfold clickCrawl.
    destruct (crawlButtonDisabled (ids st) origin) eqn:Hdis; simpl.
    + rewrite app_nil_r. now split.
    + rewrite (Hh _ _ Hdis). simpl.
      apply orb_false_iff in Hdis as [Hid _].
      apply bool_decide_eq_false in Hid.
      split; cbn [inFlight ids].
      * apply NoDup_app. split; [exact Hnd|]. split; [|apply NoDup_singleton].
        intros j Hj ->%list_elem_of_singleton. apply Hid, Hids, Hj.
      * intros j. rewrite elem_of_app, list_elem_of_singleton, elem_of_union,
          elem_of_singleton, Hids. tauto.
  - destruct (bool_decide (i ∈ inFlight st)); [|now split].
    split; cbn [inFlight ids].
    + now apply removeFirst_NoDup.
    + intros j. rewrite removeFirst_elem_of by exact Hnd.
      rewrite elem_of_difference, elem_of_singleton, Hids. tauto.
Qed.

Lemma runs_singleFlight (handler : gset Z -> Origin.t -> list Effect) :
  (forall crawling origin,
     crawlButtonDisabled crawling origin = false ->
     handler crawling origin
     = [AddCrawlingId (Origin.id origin); MutateCrawl (Origin.id origin)]) ->
  forall events st, singleFlight st -> singleFlight (foldl (crawlStep handler) st events).
Proof.
  intros Hh events. induction events as [|e events IH]; intros st Hst; simpl.
  - exact Hst.
  - apply IH. now apply crawlStep_singleFlight.
Qed.

(** X14.  Whatever sequence of clicks on crawl buttons and of ended crawls
    a page goes through, no origin has two crawls in flight, and the origins
    that the page marks as crawling are exactly the origins with a crawl in
    flight.  This holds on the Monitor page and on the dashboard. *)
Theorem crawls_are_single_flight (events : list Event) :
  let monitor := foldl (crawlStep Monitor.handleCrawl) noCrawls events in
  let dashboard := foldl (crawlStep Dashboard.handleCrawl) noCrawls events in
  (NoDup (inFlight monitor) /\ forall i, i ∈ inFlight monitor <-> i ∈ ids monitor) /\
  (NoDup (inFlight dashboard) /\ forall i, i ∈ inFlight dashboard <-> i ∈ ids dashboard).
Proof.
  assert (H0 : singleFlight noCrawls).
  { split; [constructor|]. intros i. simpl. set_solver. }
  split; (apply runs_singleFlight; [|exact H0]); intros crawling origin Hdis.
  - unfold Monitor.handleCrawl. unfold crawlButtonDisabled in Hdis. now rewrite Hdis.
  - unfold Dashboard.handleCrawl. apply orb_false_iff in Hdis as [-> _]. reflexivity.
Qed.

End MonitorPage.

Section MonitorNumbers.
Import JsString.
Variable parseDate : string -> option Z.
Variable now : Z.

Lemma filter_length_disjoint {A : Type} (p q : A -> bool) (l : list A) :
  (forall x, p x = true -> q x = false) ->
  (length (List.filter p l) + length (List.filter q l) <= length l)%nat.
Proof.
  intros Hpq. induction l as [|x l IH]; simpl; [lia|].
  destruct (p x) eqn:Hp; [rewrite (Hpq _ Hp)|destruct (q x)]; simpl; lia.
Qed.

Lemma success_not_failed (o : Origin.t) :
  Monitor.ranWithStatus parseDate now "success" o = true ->
  Monitor.ranWithStatus parseDate now "failed" o = false.
Proof.
  unfold Monitor.ranWithStatus, Monitor.statusStartsWith.
  destruct (Origin.last_run o) as [run|]; [|discriminate].
  destruct (negb (truthy run)); [discriminate|].
  destruct (Monitor.dateGe _ _); [|discriminate]. cbn [andb].
  destruct (Origin.last_status o) as [s|]; [|discriminate].
  destruct (toLowerCase s) as [|c r]; [discriminate|]. cbn [startsWith].
  destruct (Ascii.eqb "s" c) eqn:Hc; [|discriminate].
  apply Ascii.eqb_eq in Hc as <-. reflexivity.
Qed.

(** X15.  In the statistics, the total is the number of origins, the
    enabled origins are at most the total, and no origin is counted both as
    successful and as failed: the two numbers together are at most the
    total. *)
Theorem stats_bounds (origins : list Origin.t) :
  exists st : Monitor.Stats,
    Monitor.stats parseDate now (Some origins) = Some st /\
    Monitor.total st = length origins /\
    (Monitor.enabled st <= Monitor.total st)%nat /\
    (Monitor.successful st + Monitor.failed st <= Monitor.total st)%nat /\
    (forall o, ~ (ranInLast24h parseDate now "success" o /\
                  ranInLast24h parseDate now "failed" o)).
Proof.
  eexists. split; [reflexivity|]. simpl. split; [reflexivity|].
  split; [apply List.filter_length_le|].
  split; [apply filter_length_disjoint, success_not_failed|].
  intros o [Hs Hf]. apply ranWithStatus_spec in Hs, Hf.
  rewrite (success_not_failed _ Hs) in Hf. discriminate.
Qed.

Lemma insertSorted_Permutation {A : Type} (cmp : A -> A -> Z) (x : A) (l : list A) :
  Permutation (Monitor.insertSorted cmp x l) (x :: l).
Proof.
  induction l as [|y l IH]; simpl; [reflexivity|].
  destruct (cmp x y <=? 0); [reflexivity|].
  rewrite IH. apply perm_swap.
Qed.

Lemma sort_Permutation {A : Type} (cmp : A -> A -> Z) (l : list A) :
  Permutation (Monitor.sort cmp l) l.
Proof.
  induction l as [|x l IH]; [reflexivity|].
  change (Monitor.sort cmp (x :: l))
    with (Monitor.insertSorted cmp x (Monitor.sort cmp l)).
  now rewrite insertSorted_Permutation, IH.
Qed.

Lemma StronglySorted_app_forall {A : Type} (R : A -> A -> Prop) (l1 l2 : list A) :
  StronglySorted R (l1 ++ l2) -> forall a b, In a l1 -> In b l2 -> R a b.
Proof.
  induction l1 as [|x l1 IH]; simpl; [tauto|].
  intros Hs a b [<-|Ha] Hb; apply StronglySorted_inv in Hs as [Hs Hall].
  - rewrite List.Forall_forall in Hall. apply Hall, in_or_app. now right.
  - now apply (IH Hs).
Qed.

(** X16.  The activity feed and the entries it leaves out are together the
    origins that have a last run, each one once; and when the last runs are
    dates, the entries left out are no newer than any entry of the feed: the
    feed holds the most recent crawls. *)
Theorem activityFeed_most_recent (origins : list Origin.t) :
  exists rest : list Monitor.Activity.t,
    Permutation (Monitor.activityFeed parseDate (Some origins) ++ rest)
                (List.map (Monitor.toActivity parseDate)
                   (List.filter Monitor.hasLastRun origins)) /\
    (length (List.filter Monitor.hasLastRun origins) <= 20 -> rest = [])%nat /\
    (Forall (validRun parseDate) origins ->
     forall a b, In a (Monitor.activityFeed parseDate (Some origins)) -> In b rest ->
                 noOlder a b).
Proof.
  unfold Monitor.activityFeed.
  set (l := List.map (Monitor.toActivity parseDate)
              (List.filter Monitor.hasLastRun origins)).
  exists (drop 20 (Monitor.sort Monitor.compareFn l)).
  rewrite take_drop. split; [apply sort_Permutation|]. split.
  - intros Hlen. apply drop_ge. rewrite sort_length. unfold l.
    rewrite length_map. exact Hlen.
  - intros Hvalid.
    apply (StronglySorted_app_forall noOlder).
    rewrite take_drop.
    apply (sort_sorted Monitor.compareFn noOlder dated);
      [exact noOlder_trans | exact compareFn_le | exact compareFn_gt |].
    now apply toActivity_dated.
Qed.

End MonitorNumbers.

Lemma activityFeed_most_recent_witness :
  exists rest : list Monitor.Activity.t,
    rest = [] /\
    forall a b, In a (Monitor.activityFeed sampleDate (Some sameMomentOrigins)) ->
                In b rest -> noOlder a b.
Proof.
  destruct (activityFeed_most_recent sampleDate sameMomentOrigins)
    as (rest & _ & Hshort & Hnewest).
  exists rest. split.
  - apply Hshort. vm_compute. lia.
  - apply Hnewest.
    repeat constructor; intros run [= <-] _; eexists; reflexivity.
Defined.

(** ** The Monitor page: badges, error texts, relative times *)

Section Texts.
Import JsString JsText MonitorView.

Lemma split_nonempty (sep : ascii) (s : string) : split sep s <> [].
Proof.
  destruct s as [|c s]; simpl; [discriminate|].
  destruct (Ascii.eqb c sep); [discriminate|].
  destruct (split sep s); discriminate.
Qed.

(** Joining the parts of a string with the separator it was split at gives
    the string back. *)
Lemma join_split (sep : ascii) (s : string) :
  join (String sep EmptyString) (split sep s) = s.
Proof.
  induction s as [|c s IH]; simpl; [reflexivity|].
  destruct (Ascii.eqb_spec c sep) as [->|Hne].
  - pose proof (split_nonempty sep s) as Hs.
    destruct (split sep s) as [|p ps]; [contradiction|].
    cbn [join]. rewrite <- IH. reflexivity.
  - destruct (split sep s) as [|p ps] eqn:Hs; [now apply split_nonempty in Hs|].
    rewrite <- IH. destruct ps; reflexivity.
Qed.

Lemma split_has_char (sep : ascii) (s : string) :
  has_char sep s = true ->
  split sep s = upTo sep s :: split sep (after sep s).
Proof.
  induction s as [|c s IH]; simpl; [discriminate|].
  rewrite (Ascii.eqb_sym sep c).
  destruct (Ascii.eqb c sep); simpl; [reflexivity|].
  intros Hs. now rewrite (IH Hs).
Qed.

Lemma has_char_concat (sep : ascii) (p r : string) :
  has_char sep (p +++ String sep r) = true.
Proof.
  induction p as [|c p IH]; simpl.
  - now rewrite Ascii.eqb_refl.
  - rewrite IH. apply orb_true_r.
Qed.

Lemma after_concat (sep : ascii) (p r : string) :
  has_char sep p = false -> after sep (p +++ String sep r) = r.
Proof.
  induction p as [|c p IH]; simpl.
  - now rewrite Ascii.eqb_refl.
  - rewrite (Ascii.eqb_sym sep c).
    destruct (Ascii.eqb c sep); simpl; [discriminate | exact IH].
Qed.

Lemma qdrantErrorText_after (s : string) :
  has_char ":" s = true -> qdrantErrorText s = trim (after ":" s).
Proof.
  intros Hs. unfold qdrantErrorText. rewrite Hs, (split_has_char _ _ Hs).
  rewrite skipn_cons, drop_0. now rewrite join_split.
Qed.

(** X17.  For a Qdrant status with a colon, the error text in the details
    of an origin is all that follows the first colon, later colons included,
    without the white space around it. *)
Theorem qdrantErrorText_keeps_the_reason (label reason : string) :
  has_char ":" label = false ->
  qdrantErrorText (label +++ ":" +++ reason) = trim reason.
Proof.
  intros Hl. change (":" +++ reason) with (String ":" reason).
  rewrite qdrantErrorText_after by apply has_char_concat.
  now rewrite after_concat.
Qed.

Lemma qdrantErrorText_keeps_the_reason_witness :
  qdrantErrorText ("failed" +++ ":" +++ " timeout: no route to host ")
  = trim " timeout: no route to host ".
Proof.
  apply (qdrantErrorText_keeps_the_reason "failed" " timeout: no route to host ").
  reflexivity.
Defined.

(** X18.  The badge of a Qdrant status [failed:<reason>] has the title
    [Qdrant error: ] followed by the reason up to its first colon, without
    the white space around it: the title loses what follows a colon inside
    the reason. *)
Theorem getQdrantStatusBadge_title (reason : string) :
  getQdrantStatusBadge (Some ("failed:" +++ reason))
  = QdrantError ("Qdrant error: " +++ trim (upTo ":" reason)).
Proof.
  unfold getQdrantStatusBadge.
  change (truthy ("failed:" +++ reason)) with true.
  change (toLowerCase ("failed:" +++ reason)) with ("failed:" +++ toLowerCase reason).
  change (startsWith "success" ("failed:" +++ toLowerCase reason)) with false.
  change (startsWith "failed" ("failed:" +++ toLowerCase reason)) with true.
  change (has_char ":" ("failed:" +++ reason)) with true.
  change (split ":" ("failed:" +++ reason)) with ("failed" :: split ":" reason).
  destruct (split_upTo ":" reason) as [rest ->]. reflexivity.
Qed.

Lemma startsWith_first (a b : ascii) (p q s : string) :
  startsWith (String a p) s = true -> startsWith (String b q) s = true -> a = b.
Proof.
  destruct s as [|c s]; simpl; [discriminate|].
  destruct (Ascii.eqb_spec a c) as [->|]; [|discriminate].
  destruct (Ascii.eqb_spec b c) as [->|]; [reflexivity | discriminate].
Qed.

Lemma startsWith_other (a b : ascii) (p q s : string) :
  a <> b -> startsWith (String a p) s = true -> startsWith (String b q) s = false.
Proof.
  intros Hab Ha. destruct (startsWith (String b q) s) eqn:Hb; [|reflexivity].
  now destruct Hab; apply (startsWith_first _ _ _ _ _ Ha Hb).
Qed.

Lemma parseCrawlStatus_status (s : string) :
  status (parseCrawlStatus (Some s))
  = if negb (truthy s) then "never"
    else if startsWith "crawl: success" (toLowerCase s) then "success"
    else if startsWith "crawl: failed" (toLowerCase s) then "failed"
    else "unknown".
Proof.
  unfold parseCrawlStatus.
  destruct (negb (truthy s)); [reflexivity|].
  destruct (startsWith "crawl: success" (toLowerCase s)); [reflexivity|].
  destruct (startsWith "crawl: failed" (toLowerCase s)); reflexivity.
Qed.

(** X19.  The badge in the column Crawl Status depends on the last status
    in lower case alone: it is Never Run without a status, Success when the
    status begins with [crawl: success] or with [success], Failed when it
    begins with [crawl: failed] or with [failed], and the status itself
    otherwise. *)
Theorem crawlStatusBadge_cases (s : string) :
  crawlStatusBadge None = NeverRun /\
  crawlStatusBadge (Some s)
  = if negb (truthy s) then NeverRun
    else if startsWith "crawl: success" (toLowerCase s)
            || startsWith "success" (toLowerCase s) then Success
    else if startsWith "crawl: failed" (toLowerCase s)
            || startsWith "failed" (toLowerCase s) then Failed
    else Plain s.
Proof.
  split; [reflexivity|].
  unfold crawlStatusBadge. rewrite parseCrawlStatus_status.
  destruct s as [|c s]; [reflexivity|].
  change (negb (truthy (String c s))) with false. cbv iota.
  destruct (startsWith "crawl: success" (toLowerCase (String c s))) eqn:H1;
    [reflexivity|].
  destruct (startsWith "crawl: failed" (toLowerCase (String c s))) eqn:H2.
  - rewrite (startsWith_other "c" "s" _ "uccess" _ ltac:(discriminate) H2).
    reflexivity.
  - reflexivity.
Qed.

(** X20.  For a last status in the composite format, the column Crawl
    Status shows Success or Failed, where the activity feed, which gives the
    status itself to [getStatusBadge], shows the text of the status. *)
Theorem composite_status_badges (s : string) :
  (startsWith "crawl: success" (toLowerCase s) = true ->
     crawlStatusBadge (Some s) = Success /\ getStatusBadge (Some s) = Plain s) /\
  (startsWith "crawl: failed" (toLowerCase s) = true ->
     crawlStatusBadge (Some s) = Failed /\ getStatusBadge (Some s) = Plain s).
Proof.
  assert (Hplain : forall p, startsWith (String "c" p) (toLowerCase s) = true ->
                             getStatusBadge (Some s) = Plain s).
  { intros p Hp. unfold getStatusBadge.
    destruct s as [|c s]; [discriminate|].
    change (negb (truthy (String c s))) with false. cbv iota.
    rewrite (startsWith_other "c" "s" _ "uccess" _ ltac:(discriminate) Hp).
    now rewrite (startsWith_other "c" "f" _ "ailed" _ ltac:(discriminate) Hp). }
  destruct (crawlStatusBadge_cases s) as [_ ->].
  split; intros Hs; (split; [|exact (Hplain _ Hs)]).
  - rewrite Hs. destruct s; [discriminate | reflexivity].
  - rewrite Hs.
    destruct (startsWith_inv _ _ Hs) as [r Hr]. rewrite Hr.
    destruct s; [discriminate|].
    change (startsWith "crawl: success" ("crawl: failed" +++ r)) with false.
    rewrite <- Hr.
    rewrite (startsWith_other "c" "s" _ "uccess" _ ltac:(discriminate) Hs).
    reflexivity.
Qed.

Lemma composite_status_badges_witness :
  crawlStatusBadge (Some "crawl: success, qdrant: success") = Success /\
  getStatusBadge (Some "crawl: success, qdrant: success")
  = Plain "crawl: success, qdrant: success".
Proof.
  apply (composite_status_badges "crawl: success, qdrant: success"). reflexivity.
Defined.

End Texts.

Section RelativeTime.
Import JsString JsText MonitorView.
Variable parseDate : string -> option Z.
Variable toLocaleDateString : option Z -> string.
Variable now : Z.

(** X21.  [getRelativeTime] of a date that lies [d] milliseconds before now
    is [Just now] when [d] is under a minute, also for a date after now; a
    number of whole minutes from 1 to 59 when [d] is under an hour; a number
    of whole hours from 1 to 23 when [d] is under a day; a number of whole
    days from 1 to 6 when [d] is under a week; and the local date from a week
    on.  An invalid date is shown as the local date renders it, and no date
    as [Never]. *)
Theorem getRelativeTime_ranges (t : Z) :
  let d := now - t in
  let shown := getRelativeTime parseDate toLocaleDateString now (DateObject (Some t)) in
  (d < 60000 -> shown = "Just now") /\
  (60000 <= d < 3600000 ->
     shown = numberToString (d / 60000) +++ "m ago" /\ 1 <= d / 60000 <= 59) /\
  (3600000 <= d < 86400000 ->
     shown = numberToString (d / 3600000) +++ "h ago" /\ 1 <= d / 3600000 <= 23) /\
  (86400000 <= d < 604800000 ->
     shown = numberToString (d / 86400000) +++ "d ago" /\ 1 <= d / 86400000 <= 6) /\
  (604800000 <= d -> shown = toLocaleDateString (Some t)) /\
  getRelativeTime parseDate toLocaleDateString now (DateObject None)
    = toLocaleDateString None /\
  getRelativeTime parseDate toLocaleDateString now DateNull = "Never" /\
  getRelativeTime parseDate toLocaleDateString now (DateString EmptyString) = "Never".
Proof.
  simpl. set (d := now - t).
  assert (Hm : d / 60000 < 1 <-> d < 60000)
    by (split; intros; [apply Z.nle_gt; intros Hc;
          assert (1 <= d / 60000) by (apply Z.div_le_lower_bound; lia); lia
        | apply Z.div_lt_upper_bound; lia]).
  assert (Hm60 : d / 60000 < 60 <-> d < 3600000)
    by (split; intros; [apply Z.nle_gt; intros Hc;
          assert (60 <= d / 60000) by (apply Z.div_le_lower_bound; lia); lia
        | apply Z.div_lt_upper_bound; lia]).
  assert (Hh : d / 3600000 < 24 <-> d < 86400000)
    by (split; intros; [apply Z.nle_gt; intros Hc;
          assert (24 <= d / 3600000) by (apply Z.div_le_lower_bound; lia); lia
        | apply Z.div_lt_upper_bound; lia]).
  assert (Hd : d / 86400000 < 7 <-> d < 604800000)
    by (split; intros; [apply Z.nle_gt; intros Hc;
          assert (7 <= d / 86400000) by (apply Z.div_le_lower_bound; lia); lia
        | apply Z.div_lt_upper_bound; lia]).
  assert (Hh1 : 3600000 <= d -> 1 <= d / 3600000)
    by (intros; apply Z.div_le_lower_bound; lia).
  assert (Hd1 : 86400000 <= d -> 1 <= d / 86400000)
    by (intros; apply Z.div_le_lower_bound; lia).
  destruct (Z.ltb_spec (d / 60000) 1) as [H1|H1];
    [|destruct (Z.ltb_spec (d / 60000) 60) as [H2|H2];
      [|destruct (Z.ltb_spec (d / 3600000) 24) as [H3|H3];
        [|destruct (Z.ltb_spec (d / 86400000) 7) as [H4|H4]]]];
    repeat split; intros; try reflexivity; try lia.
Qed.

End RelativeTime.

Lemma getRelativeTime_ranges_witness :
  MonitorView.getRelativeTime sampleDate (fun _ => "1/1/2024") 1704074400000
    (MonitorView.DateObject (Some 1704067200000))
  = JsText.numberToString ((1704074400000 - 1704067200000) / 3600000) +++ "h ago".
Proof.
  apply (getRelativeTime_ranges sampleDate (fun _ => "1/1/2024")
           1704074400000 1704067200000).
  lia.
Defined.

(** Two hours after the last run. *)
Example getRelativeTime_two_hours :
  MonitorView.getRelativeTime sampleDate (fun _ => "1/1/2024") 1704074400000
    (MonitorView.DateString "2024-01-01T00:00:00Z") = "2h ago".
Proof. vm_compute. reflexivity. Qed.

(** ** The crawl status in any case of letters *)

Section AnyCase.
Import JsString JsText.

Ltac every_char c :=
  destruct c as [[] [] [] [] [] [] [] []]; vm_compute;
  try reflexivity; intros; try discriminate; try reflexivity.

Lemma canonicalize_toLowerChar (c : ascii) :
  between 0 127 (toLowerChar c) = true ->
  canonicalize (toLowerChar c) = canonicalize c.
Proof. every_char c. Qed.

Lemma toLowerChar_fixed (c : ascii) :
  between 97 122 (toLowerChar c) = false ->
  between 224 254 (toLowerChar c) = false ->
  toLowerChar c = c.
Proof. every_char c. Qed.

Lemma isWhiteSpace_toLowerChar (c : ascii) :
  isWhiteSpace c = true -> toLowerChar c = c.
Proof. every_char c. Qed.

Lemma comma_toLowerChar (c : ascii) :
  Ascii.eqb "," (toLowerChar c) = Ascii.eqb "," c.
Proof. every_char c. Qed.

Lemma concat_assoc (a b c : string) : (a +++ b) +++ c = a +++ b +++ c.
Proof. induction a as [|x a IH]; simpl; [reflexivity|]. now rewrite IH. Qed.

Lemma toLowerCase_concat (a b : string) :
  toLowerCase (a +++ b) = toLowerCase a +++ toLowerCase b.
Proof. induction a as [|x a IH]; simpl; [reflexivity|]. now rewrite IH. Qed.

Lemma toLowerCase_concat_inv (a b p : string) :
  toLowerCase p = a +++ b ->
  exists p1 p2, p = p1 +++ p2 /\ toLowerCase p1 = a /\ toLowerCase p2 = b.
Proof.
  revert p. induction a as [|x a IH]; intros p; simpl.
  - intros Hp. now exists EmptyString, p.
  - destruct p as [|c p]; simpl; [discriminate|].
    intros [= Hc Hp]. destruct (IH _ Hp) as (p1 & p2 & -> & H1 & H2).
    exists (String c p1), p2. simpl. now rewrite Hc, H1.
Qed.

Lemma has_comma_toLowerCase (s : string) :
  has_char "," (toLowerCase s) = has_char "," s.
Proof.
  induction s as [|c s IH]; [reflexivity|].
  cbn [has_char toLowerCase]. now rewrite comma_toLowerChar, IH.
Qed.

Lemma upTo_concat (sep : ascii) (p r : string) :
  has_char sep p = false -> upTo sep (p +++ r) = p +++ upTo sep r.
Proof.
  induction p as [|c p IH]; simpl; [reflexivity|].
  rewrite (Ascii.eqb_sym sep c).
  destruct (Ascii.eqb c sep); simpl; [discriminate|].
  intros Hp. now rewrite (IH Hp).
Qed.

(** A literal of the pattern matches the text of which it is the lower
    case form. *)
Lemma matchLiteralI_toLowerCase (p r : string) :
  isAscii (toLowerCase p) = true ->
  matchLiteralI (toLowerCase p) (p +++ r) = Some r.
Proof.
  induction p as [|c p IH]; simpl; [reflexivity|].
  intros [Hc Hp]%andb_true_iff.
  rewrite (canonicalize_toLowerChar _ Hc), Ascii.eqb_refl. now apply IH.
Qed.

Lemma toLowerCase_one_fixed (x : ascii) (p : string) :
  between 97 122 x = false -> between 224 254 x = false ->
  toLowerCase p = String x EmptyString -> p = String x EmptyString.
Proof.
  intros H1 H2. destruct p as [|c [|d p]]; simpl; try discriminate.
  intros [= Hc]. rewrite <- Hc in H1, H2.
  now rewrite <- (toLowerChar_fixed _ H1 H2), Hc.
Qed.

Lemma removeCrawlFailed_any_case (p r : string) :
  toLowerCase p = "crawl: failed: " -> removeCrawlFailed (p +++ r) = trimStart r.
Proof.
  intros Hp.
  change "crawl: failed: " with ("crawl:" +++ " " +++ "failed" +++ ":" +++ " ") in Hp.
  apply toLowerCase_concat_inv in Hp as (p1 & q1 & -> & H1 & Hp).
  apply toLowerCase_concat_inv in Hp as (p2 & q2 & -> & H2 & Hp).
  apply toLowerCase_concat_inv in Hp as (p3 & q3 & -> & H3 & Hp).
  apply toLowerCase_concat_inv in Hp as (p4 & p5 & -> & H4 & H5).
  apply toLowerCase_one_fixed in H2 as ->; [|reflexivity..].
  apply toLowerCase_one_fixed in H4 as ->; [|reflexivity..].
  apply toLowerCase_one_fixed in H5 as ->; [|reflexivity..].
  rewrite !concat_assoc.
  unfold removeCrawlFailed, matchCrawlFailed.
  rewrite <- H1 at 1. rewrite matchLiteralI_toLowerCase by now rewrite H1.
  change (matchSpaces (" " +++ p3 +++ ":" +++ " " +++ r))
    with (trimStart (p3 +++ ":" +++ " " +++ r)).
  assert (Hf : trimStart (p3 +++ ":" +++ " " +++ r) = p3 +++ ":" +++ " " +++ r).
  { destruct p3 as [|c p3]; [discriminate|]. simpl in H3. injection H3 as Hc _.
    simpl. destruct (isWhiteSpace c) eqn:Hw; [|reflexivity].
    rewrite (isWhiteSpace_toLowerChar _ Hw) in Hc. subst c. discriminate. }
  rewrite Hf. rewrite <- H3 at 1.
  rewrite matchLiteralI_toLowerCase by now rewrite H3.
  reflexivity.
Qed.

(** X22.  The prefix of the composite status is read in any case of
    letters: a status that is [crawl: failed: ] in some case, followed by a
    reason without a comma, gives [failed] with the reason without the white
    space around it, and a status that begins with [crawl: success] in some
    case gives [success] without an error. *)
Theorem parseCrawlStatus_any_case (p rest : string) :
  (toLowerCase p = "crawl: failed: " -> has_char "," rest = false ->
     parseCrawlStatus (Some (p +++ rest))
     = {| status := "failed"; error := Some (trim rest) |}) /\
  (toLowerCase p = "crawl: success" ->
     parseCrawlStatus (Some (p +++ rest)) = {| status := "success"; error := None |}).
Proof.
  split.
  - intros Hp Hc.
    assert (Hcomma : has_char "," p = false).
    { rewrite <- has_comma_toLowerCase, Hp. reflexivity. }
    assert (Hlow : toLowerCase (p +++ rest) = "crawl: failed: " +++ toLowerCase rest).
    { now rewrite toLowerCase_concat, Hp. }
    assert (Htruthy : truthy (p +++ rest) = true).
    { destruct p; [discriminate | reflexivity]. }
    unfold parseCrawlStatus. rewrite Htruthy, Hlow.
    change (startsWith "crawl: success" ("crawl: failed: " +++ toLowerCase rest))
      with false.
    change (startsWith "crawl: failed" ("crawl: failed: " +++ toLowerCase rest))
      with true.
    cbv iota. cbn [negb].
    destruct (split_upTo "," (p +++ rest)) as [parts ->].
    rewrite (upTo_concat _ _ _ Hcomma), (upTo_no_sep _ _ Hc).
    cbn [List.find]. rewrite Hlow.
    change (startsWith "crawl:" ("crawl: failed: " +++ toLowerCase rest)) with true.
    cbv iota.
    now rewrite (removeCrawlFailed_any_case _ _ Hp), trim_trimStart.
  - intros Hp.
    assert (Htruthy : truthy (p +++ rest) = true).
    { destruct p; [discriminate | reflexivity]. }
    unfold parseCrawlStatus. rewrite Htruthy, toLowerCase_concat, Hp.
    now rewrite startsWith_concat.
Qed.

Lemma parseCrawlStatus_any_case_witness :
  parseCrawlStatus (Some ("Crawl: FAILED: " +++ "Connection timed out"))
  = {| status := "failed"; error := Some (trim "Connection timed out") |}.
Proof.
  apply (parseCrawlStatus_any_case "Crawl: FAILED: " "Connection timed out");
    reflexivity.
Defined.

End AnyCase.

(** ** Instances *)

Lemma deduplicateCitations_sublist_NoDup_covers_witness :
  exists d, In d (deduplicateCitations (Some [rmfCore; rmfPlaybook; actSummary])) /\
            citation_key d = citation_key rmfPlaybook.
Proof.
  apply (deduplicateCitations_sublist_NoDup_covers [rmfCore; rmfPlaybook; actSummary]).
  right. left. reflexivity.
Defined.

Lemma handleQuery_completes_witness :
  exists st' added,
    fst (AskAI.handleQuery "What is the AI Act?" (AskAI.Throw AskAI.sampleError)
           AskAI.initialState) = AskAI.Normal st' /\
    AskAI.messages st' = (AskAI.messages AskAI.initialState ++ added)%list /\
    AskAI.isLoading st' = false.
Proof.
  destruct (handleQuery_completes "What is the AI Act?" (AskAI.Throw AskAI.sampleError)
              AskAI.initialState) as (st' & added & Hst & Hmsg & _ & Hload).
  exists st', added. split; [exact Hst|]. split; [exact Hmsg|].
  apply Hload. reflexivity.
Defined.

Lemma toggleErrorExpansion_flips_witness :
  (2 : Z) ∈ MonitorView.toggleErrorExpansion 1 {[2]}.
Proof.
  apply (toggleErrorExpansion_flips 1 {[2]}); [discriminate|].
  apply elem_of_singleton_2. reflexivity.
Defined.
